(** * Version ledger of BitModern/foundation: shared/version.ts and VersionManager

    A shallow embedding of the version identifier (format, parse, increment),
    the impact scorer and the release ledger (migration, update with optional
    consolidation, addChangelogEntry, addRelease), followed by the properties
    the specification states about them.

    Conventions of the embedding.
    - A JavaScript string is a [string]; each [ascii] stands for one code unit
      in the range U+0000..U+00FF.
    - A JavaScript number that holds an integer is a [Z]; where the code can
      also produce NaN ([parseInt], [Date.prototype.getTime], [Math.min] of
      a string) the type is [number].  Fractions, infinities, the loss of
      precision above 2^53 and the exponent notation in which numbers are
      written from 10^21 are outside the embedding.
    - An object used as a dictionary ([Record<string, T>]) is a [JsObject T]:
      its own properties in enumeration order.  Members inherited from
      [Object.prototype] are modelled where the code can read one, in
      [typeScores]; an assignment under the key [__proto__], which stores no
      property, is outside the embedding.
    - The version file is an [option VersionData.t]; [None] is a file that is
      missing or does not parse, [Some] a document with at least a version,
      the numbers and a changelog.
    - A score that is not a number is NaN in memory and null in the file;
      both are [Some NaN]. *)

From Stdlib Require Import ZArith NArith List String Ascii Bool Lia.
Import ListNotations.
Local Open Scope string_scope.
Local Open Scope Z_scope.

(* ------------------------------------------------------------------ *)
(** ** Strings *)

Module JsString.

Definition code (c : ascii) : N := N_of_ascii c.

Definition isDigit (c : ascii) : bool :=
  ((48 <=? code c) && (code c <=? 57))%N.

(** StrWhiteSpaceChar below U+0100: TAB, LF, VT, FF, CR, SP, NBSP. *)
Definition isWhiteSpace (c : ascii) : bool :=
  (((9 <=? code c) && (code c <=? 13)) || (code c =? 32) || (code c =? 160))%N.

(** [String.prototype.toLowerCase] below U+0100: A-Z and the capital
    letters U+00C0..U+00DE (without the multiplication sign U+00D7). *)
Definition lowerChar (c : ascii) : ascii :=
  let n := code c in
  if (((65 <=? n) && (n <=? 90))
      || ((192 <=? n) && (n <=? 222) && negb (n =? 215)))%N
  then ascii_of_N (n + 32) else c.

Fixpoint toLowerCase (s : string) : string :=
  match s with
  | EmptyString => EmptyString
  | String c s' => String (lowerChar c) (toLowerCase s')
  end.

Fixpoint startsWith (s p : string) {struct p} : bool :=
  match p with
  | EmptyString => true
  | String a p' =>
      match s with
      | EmptyString => false
      | String b s' => (a =? b)%char && startsWith s' p'
      end
  end.

(** [s.includes(search)]: [search] occurs at some position of [s]. *)
Fixpoint includes (s search : string) : bool :=
  startsWith s search
  || match s with
     | EmptyString => false
     | String _ s' => includes s' search
     end.

(** [s.split(sep)] for a one-character separator: never the empty list. *)
Fixpoint split (sep : ascii) (s : string) : list string :=
  match s with
  | EmptyString => [EmptyString]
  | String c s' =>
      if (c =? sep)%char then EmptyString :: split sep s'
      else match split sep s' with
           | h :: t => String c h :: t
           | [] => [String c EmptyString]
           end
  end.

(** [arr.join(sep)] on an array of strings. *)
Definition join (sep : string) (arr : list string) : string :=
  String.concat sep arr.

Fixpoint repeatChar (n : nat) (c : ascii) : string :=
  match n with
  | O => EmptyString
  | S n' => String c (repeatChar n' c)
  end.

(** [s.padStart(targetLength, fill)] for a one-character fill string. *)
Definition padStart (targetLength : nat) (fill : ascii) (s : string) : string :=
  repeatChar (targetLength - String.length s) fill ++ s.

Fixpoint trimStart (s : string) : string :=
  match s with
  | EmptyString => EmptyString
  | String c s' => if isWhiteSpace c then trimStart s' else s
  end.

(** Every code unit of [s] satisfies [p]. *)
Fixpoint allChars (p : ascii -> bool) (s : string) : bool :=
  match s with
  | EmptyString => true
  | String c s' => p c && allChars p s'
  end.

Definition noDot (s : string) : bool :=
  allChars (fun c => negb (c =? ".")%char) s.

End JsString.

(* ------------------------------------------------------------------ *)
(** ** Numbers *)

Inductive number : Type :=
| NaN
| Num (z : Z).

Module JsNumber.

Definition sub (a b : number) : number :=
  match a, b with
  | Num x, Num y => Num (x - y)
  | _, _ => NaN
  end.

Definition digitChar (d : N) : ascii := ascii_of_N (48 + d).

Fixpoint digitsOf (fuel : nat) (n : N) (acc : string) : string :=
  match fuel with
  | O => acc
  | S fuel' =>
      let acc' := String (digitChar (n mod 10)) acc in
      if (n / 10 =? 0)%N then acc' else digitsOf fuel' (n / 10)%N acc'
  end.

Definition decimal (n : N) : string :=
  digitsOf (S (N.to_nat (N.log2 n))) n EmptyString.

(** [Number.prototype.toString()] (also the conversion inside a template
    literal) for an integer: plain decimal notation, which JavaScript uses
    below 10^21. *)
Definition toString (z : Z) : string :=
  match z with
  | Z0 => "0"
  | Zpos p => decimal (Npos p)
  | Zneg p => String "-" (decimal (Npos p))
  end.

(** The value of [c] as a digit in [radix], if it is one. *)
Definition digitValue (radix : N) (c : ascii) : option N :=
  let n := JsString.code c in
  let v := if ((48 <=? n) && (n <=? 57))%N then Some (n - 48)%N
           else if ((97 <=? n) && (n <=? 122))%N then Some (n - 87)%N
           else if ((65 <=? n) && (n <=? 90))%N then Some (n - 55)%N
           else None in
  match v with
  | Some d => if (d <? radix)%N then Some d else None
  | None => None
  end.

(** Longest prefix of radix digits, accumulated left to right; [acc] is
    [None] until a first digit is read. *)
Fixpoint parseDigits (radix : N) (s : string) (acc : option N) : option N :=
  match s with
  | EmptyString => acc
  | String c s' =>
      match digitValue radix c with
      | Some d =>
          parseDigits radix s'
            (Some (radix * match acc with Some a => a | None => 0 end + d)%N)
      | None => acc
      end
  end.

(** [parseInt(s)] with no radix argument: leading white space, an optional
    sign, an optional 0x/0X prefix, then the longest digit prefix; NaN when
    there is no digit. *)
Definition parseInt (s : string) : number :=
  let s1 := JsString.trimStart s in
  let '(sign, s2) :=
    match s1 with
    | String c r =>
        if (c =? "-")%char then (-1, r)
        else if (c =? "+")%char then (1, r)
        else (1, s1)
    | EmptyString => (1, s1)
    end in
  let '(radix, s3) :=
    match s2 with
    | String c0 (String c1 r) =>
        if (c0 =? "0")%char && ((c1 =? "x")%char || (c1 =? "X")%char)
        then (16%N, r) else (10%N, s2)
    | _ => (10%N, s2)
    end in
  match parseDigits radix s3 None with
  | None => NaN
  | Some n => Num (sign * Z.of_N n)
  end.

End JsNumber.

(* ------------------------------------------------------------------ *)
(** ** Objects used as dictionaries *)

(** The entries of an object in property enumeration order: array-index
    keys first, in ascending numeric order, then the other keys in the order
    they were created. *)
Definition JsObject (V : Type) : Type := list (string * V).

Module JsObject.

Section Operations.
Context {V : Type}.

(** A canonical numeric string below 2^32 - 1. *)
Definition arrayIndex (k : string) : option N :=
  match JsNumber.parseDigits 10 k None with
  | Some n =>
      if (JsNumber.toString (Z.of_N n) =? k)%string && (n <? 4294967295)%N
      then Some n else None
  | None => None
  end.

Definition keys (o : JsObject V) : list string := map fst o.

(** [o[k]] for an own property [k] of [o]; [None], undefined, when [o]
    has no such property of its own. *)
Fixpoint get (k : string) (o : JsObject V) : option V :=
  match o with
  | [] => None
  | (k', v) :: o' => if (k =? k')%string then Some v else get k o'
  end.

Definition has (k : string) (o : JsObject V) : bool :=
  existsb (String.eqb k) (keys o).

Fixpoint replace (k : string) (v : V) (o : JsObject V) : JsObject V :=
  match o with
  | [] => []
  | (k', v') :: o' =>
      if (k =? k')%string then (k, v) :: o' else (k', v') :: replace k v o'
  end.

Fixpoint insertIndex (i : N) (k : string) (v : V) (o : JsObject V)
  : JsObject V :=
  match o with
  | [] => [(k, v)]
  | (k', v') :: o' =>
      match arrayIndex k' with
      | Some j =>
          if (j <? i)%N then (k', v') :: insertIndex i k v o'
          else (k, v) :: o
      | None => (k, v) :: o
      end
  end.

(** [o[k] = v] for a key other than [__proto__]: an existing property
    keeps its place; a new one is created at the place its key has in the
    enumeration order. *)
Definition set (k : string) (v : V) (o : JsObject V) : JsObject V :=
  if has k o then replace k v o
  else match arrayIndex k with
       | Some i => insertIndex i k v o
       | None => (o ++ [(k, v)])%list
       end.

(** [delete o[k]]. *)
Definition delete (k : string) (o : JsObject V) : JsObject V :=
  filter (fun e => negb (fst e =? k)%string) o.

(** [k1] may come before [k2] in the enumeration order. *)
Definition precedes (k1 k2 : string) : bool :=
  match arrayIndex k1, arrayIndex k2 with
  | Some i, Some j => (i <? j)%N
  | Some _, None => true
  | None, Some _ => false
  | None, None => true
  end.

(** The list is the enumeration of an object: no key twice, array-index
    keys first and ascending. *)
Fixpoint wf (o : JsObject V) : bool :=
  match o with
  | [] => true
  | (k, _) :: o' =>
      forallb (fun e => negb (k =? fst e)%string && precedes k (fst e)) o'
      && wf o'
  end.

End Operations.

End JsObject.

(* ------------------------------------------------------------------ *)
(** ** Arrays *)

Module JsArray.

(** The comparator's result places [x] after [y] only when it is positive;
    NaN counts as +0. *)
Definition isPositive (v : number) : bool :=
  match v with
  | Num z => 0 <? z
  | NaN => false
  end.

Section Sort.
Context {A : Type} (comparefn : A -> A -> number).

Fixpoint insertSorted (x : A) (l : list A) : list A :=
  match l with
  | [] => [x]
  | y :: l' =>
      if isPositive (comparefn x y) then y :: insertSorted x l' else x :: l
  end.

(** [arr.sort(comparefn)]: a stable sort.  ECMAScript fixes the result only
    for a consistent comparator; there every stable sort agrees with this
    one. *)
Definition sort (arr : list A) : list A :=
  fold_right insertSorted [] arr.

End Sort.

(** [const existing = new Set(arr); incoming.forEach(x => { if
    (!existing.has(x)) arr.push(x) })]: the set is built once, before the
    loop. *)
Definition pushMissing (arr incoming : list string) : list string :=
  (arr ++ filter (fun x => negb (existsb (String.eqb x) arr)) incoming)%list.

End JsArray.

(* ------------------------------------------------------------------ *)
(** ** shared/version.ts *)

Module Release.
Record t : Type := mk {
  version : string;
  date : string;
  title : string;
  type : string;
  summary : string;
  changes : list string;
  technical : option (list string);
  impactScore : option number
}.
End Release.

(** The parsed content of version.json as [migrateVersionFormat] receives
    it ([any]): a legacy document has no [build]. *)
Module VersionData.
Record t : Type := mk {
  version : string;
  major : Z;
  minor : Z;
  update : Z;
  build : option Z;
  changelog : JsObject string;
  releases : option (JsObject Release.t)
}.
End VersionData.

Module VersionInfo.
Record t : Type := mk {
  version : string;
  major : Z;
  minor : Z;
  update : Z;
  build : Z;
  changelog : JsObject string;
  releases : option (JsObject Release.t)
}.
End VersionInfo.

Definition formatVersion (major minor update : Z) (build : option Z) : string :=
  match build with
  | Some build =>
      JsNumber.toString major ++ "."
      ++ JsString.padStart 2 "0" (JsNumber.toString minor) ++ "."
      ++ JsString.padStart 3 "0" (JsNumber.toString update) ++ "."
      ++ JsString.padStart 3 "0" (JsNumber.toString build)
  | None =>
      JsNumber.toString major ++ "."
      ++ JsString.padStart 2 "0" (JsNumber.toString minor) ++ "."
      ++ JsString.padStart 3 "0" (JsNumber.toString update)
  end.

Module ParsedVersion.
Record t : Type := mk {
  major : number;
  minor : number;
  update : number;
  build : number
}.
End ParsedVersion.

(** [part || fallback] for a string that may be undefined: the empty string
    is falsy too. *)
Definition orElse (part : option string) (fallback : string) : string :=
  match part with
  | None => fallback
  | Some EmptyString => fallback
  | Some s => s
  end.

Definition parseVersion (version : string) : ParsedVersion.t :=
  let parts := JsString.split "." version in
  ParsedVersion.mk
    (JsNumber.parseInt (orElse (nth_error parts 0) "0"))
    (JsNumber.parseInt (orElse (nth_error parts 1) "0"))
    (JsNumber.parseInt (orElse (nth_error parts 2) "0"))
    (JsNumber.parseInt (orElse (nth_error parts 3) "0")).

Inductive IncrementType : Type := Major | Minor | Update | Build.

Definition incrementVersion (current : VersionInfo.t) (type : IncrementType)
  : VersionInfo.t :=
  let '(major, minor, update, build) :=
    match type with
    | Major => (VersionInfo.major current + 1, 0, 0, 0)
    | Minor => (VersionInfo.major current, VersionInfo.minor current + 1, 0, 0)
    | Update => (VersionInfo.major current, VersionInfo.minor current,
                 VersionInfo.update current + 1, 0)
    | Build => (VersionInfo.major current, VersionInfo.minor current,
                VersionInfo.update current, VersionInfo.build current + 1)
    end in
  VersionInfo.mk (formatVersion major minor update (Some build))
    major minor update build
    (VersionInfo.changelog current) (VersionInfo.releases current).

(** Impact scoring system *)

(** The own properties of the [typeScores] literal. *)
Definition typeScores : JsObject Z :=
  [("major", 100); ("feature", 70); ("update", 40); ("fix", 20)].

(** The names every object literal inherits from [Object.prototype]: under
    [__proto__] the prototype itself, under each of the others a function. *)
Definition objectPrototypeNames : list string :=
  ["constructor"; "__defineGetter__"; "__defineSetter__"; "hasOwnProperty";
   "__lookupGetter__"; "__lookupSetter__"; "isPrototypeOf";
   "propertyIsEnumerable"; "toString"; "valueOf"; "__proto__";
   "toLocaleString"].

Definition inherited (name : string) : bool :=
  existsb (String.eqb name) objectPrototypeNames.

(** The running [score]: a number, or, once an object has been added to
    it, a string that starts with 0 and the text of that object. *)
Inductive Score : Type :=
| Points (z : Z)
| Text.

(** [score += n] for a number [n]: addition, or concatenation to the
    string. *)
Definition plusAssign (score : Score) (n : Z) : Score :=
  match score with
  | Points z => Points (z + n)
  | Text => Text
  end.

Definition highImpactKeywords : list string :=
  ["security"; "performance"; "authentication"; "database"; "api";
   "integration"; "ui"; "ux"; "accessibility"; "optimization";
   "architecture"; "framework"; "migration"; "breaking"].

Definition allText (release : Release.t) : string :=
  JsString.toLowerCase
    (Release.title release ++ " " ++ Release.summary release ++ " "
     ++ JsString.join " " (Release.changes release) ++ " "
     ++ match Release.technical release with
        | Some technical => JsString.join " " technical
        | None => ""
        end).

Definition calculateImpactScore (release : Release.t) : number :=
  let score := Points 0 in
  (* Base score by type: [typeScores[release.type] || 0] finds an own
     entry, or a function or object inherited from Object.prototype, which
     is truthy, or nothing *)
  let score :=
    match JsObject.get (Release.type release) typeScores with
    | Some points => plusAssign score points
    | None =>
        if inherited (Release.type release) then Text else plusAssign score 0
    end in
  (* Score based on number of changes *)
  let score :=
    plusAssign score (Z.of_nat (List.length (Release.changes release)) * 5) in
  (* Score based on technical complexity *)
  let score :=
    match Release.technical release with
    | Some technical =>
        plusAssign score (Z.of_nat (List.length technical) * 3)
    | None => score
    end in
  (* Boost score for certain high-impact keywords *)
  let score :=
    fold_left
      (fun score keyword =>
         if JsString.includes (allText release) keyword
         then plusAssign score 10
         else score)
      highImpactKeywords score in
  (* Cap the score at 200; a string that is no numeral converts to NaN *)
  match score with
  | Points z => Num (Z.min z 200)
  | Text => NaN
  end.

Module ImpactLevel.
Record t : Type := mk {
  level : string;
  color : string;
  description : string
}.
End ImpactLevel.

Definition getImpactLevel (score : Z) : ImpactLevel.t :=
  if 150 <=? score then
    ImpactLevel.mk "Critical" "text-red-600 dark:text-red-400"
      "Major system changes with significant impact"
  else if 100 <=? score then
    ImpactLevel.mk "High" "text-orange-600 dark:text-orange-400"
      "Important updates affecting core functionality"
  else if 60 <=? score then
    ImpactLevel.mk "Medium" "text-yellow-600 dark:text-yellow-400"
      "Notable improvements and enhancements"
  else if 30 <=? score then
    ImpactLevel.mk "Low" "text-blue-600 dark:text-blue-400"
      "Minor fixes and small improvements"
  else
    ImpactLevel.mk "Minimal" "text-gray-600 dark:text-gray-400"
      "Small maintenance updates".

(* ------------------------------------------------------------------ *)
(** ** server/utils/version-manager.ts *)

Module ReleaseInfo.
Record t : Type := mk {
  title : string;
  summary : string;
  changes : list string;
  technical : option (list string);
  consolidateWithPrevious : option bool
}.
End ReleaseInfo.

(** A [VersionInfo] handed back to code that takes [any]. *)
Definition asAny (v : VersionInfo.t) : VersionData.t :=
  VersionData.mk (VersionInfo.version v)
    (VersionInfo.major v) (VersionInfo.minor v) (VersionInfo.update v)
    (Some (VersionInfo.build v))
    (VersionInfo.changelog v) (VersionInfo.releases v).

Module VersionManager.

Definition hasThreeParts (s : string) : bool :=
  (List.length (JsString.split "." s) =? 3)%nat.

(** [key.split('.').length === 3 ? `${key}.000` : key] *)
Definition withBuild (key : string) : string :=
  if hasThreeParts key then key ++ ".000" else key.

(** [{ ...release, version: ... }] *)
Definition migratedRelease (release : Release.t) : Release.t :=
  Release.mk (withBuild (Release.version release))
    (Release.date release) (Release.title release) (Release.type release)
    (Release.summary release) (Release.changes release)
    (Release.technical release) (Release.impactScore release).

Definition migrateVersionFormat (versionData : VersionData.t) : VersionInfo.t :=
  (* Add build number if missing *)
  let build :=
    match VersionData.build versionData with
    | None => 0
    | Some build => build
    end in
  (* Convert version string to include build number if it doesn't have one *)
  let version :=
    if negb (VersionData.version versionData =? "")%string
       && hasThreeParts (VersionData.version versionData)
    then VersionData.version versionData ++ ".000"
    else VersionData.version versionData in
  (* Migrate releases to include build numbers in version strings *)
  let releases :=
    match VersionData.releases versionData with
    | Some releases =>
        Some (fold_left
                (fun migratedReleases entry =>
                   JsObject.set (withBuild (fst entry))
                     (migratedRelease (snd entry)) migratedReleases)
                releases [])
    | None => None
    end in
  (* Migrate changelog keys; an object is always truthy *)
  let changelog :=
    fold_left
      (fun migratedChangelog entry =>
         JsObject.set (withBuild (fst entry)) (snd entry) migratedChangelog)
      (VersionData.changelog versionData) [] in
  VersionInfo.mk version
    (VersionData.major versionData) (VersionData.minor versionData)
    (VersionData.update versionData) build changelog releases.

Definition defaultVersion : VersionInfo.t :=
  VersionInfo.mk "0.01.012.000" 0 1 12 0
    [("0.01.012.000",
      "Implemented comprehensive version impact scoring to highlight key improvements and system changes")]
    (Some []).

Definition getCurrentVersion (file : option VersionData.t) : VersionInfo.t :=
  match file with
  | Some versionData => migrateVersionFormat versionData
  | None => defaultVersion
  end.

Definition releaseType (type : IncrementType) : string :=
  match type with
  | Major => "major"
  | Minor => "feature"
  | Build => "fix"
  | Update => "update"
  end.

(** [now] is the value of [new Date().toISOString()]. *)
Definition createNewRelease (now : string) (versionInfo : VersionInfo.t)
    (releaseInfo : ReleaseInfo.t) (type : IncrementType) : VersionInfo.t :=
  let releases :=
    match VersionInfo.releases versionInfo with
    | Some releases => releases
    | None => []
    end in
  let release :=
    Release.mk (VersionInfo.version versionInfo) now
      (ReleaseInfo.title releaseInfo) (releaseType type)
      (ReleaseInfo.summary releaseInfo) (ReleaseInfo.changes releaseInfo)
      (ReleaseInfo.technical releaseInfo) None in
  (* Calculate and add impact score *)
  let release :=
    Release.mk (Release.version release) (Release.date release)
      (Release.title release) (Release.type release)
      (Release.summary release) (Release.changes release)
      (Release.technical release) (Some (calculateImpactScore release)) in
  VersionInfo.mk (VersionInfo.version versionInfo)
    (VersionInfo.major versionInfo) (VersionInfo.minor versionInfo)
    (VersionInfo.update versionInfo) (VersionInfo.build versionInfo)
    (VersionInfo.changelog versionInfo)
    (Some (JsObject.set (VersionInfo.version versionInfo) release releases)).

(** The release the consolidation branch leaves in place of [latestRelease]. *)
Definition consolidatedRelease (now version : string)
    (latestRelease : Release.t) (releaseInfo : ReleaseInfo.t) : Release.t :=
  (* Merge changes, avoiding duplicates *)
  let changes :=
    JsArray.pushMissing (Release.changes latestRelease)
      (ReleaseInfo.changes releaseInfo) in
  (* Merge technical details, avoiding duplicates *)
  let technical :=
    match ReleaseInfo.technical releaseInfo with
    | Some incoming =>
        Some (JsArray.pushMissing
                match Release.technical latestRelease with
                | Some technical => technical
                | None => []
                end incoming)
    | None => Release.technical latestRelease
    end in
  let latestRelease :=
    Release.mk version now (Release.title latestRelease)
      (Release.type latestRelease) (ReleaseInfo.summary releaseInfo)
      changes technical (Release.impactScore latestRelease) in
  (* Recalculate impact score after consolidation *)
  Release.mk (Release.version latestRelease) (Release.date latestRelease)
    (Release.title latestRelease) (Release.type latestRelease)
    (Release.summary latestRelease) (Release.changes latestRelease)
    (Release.technical latestRelease)
    (Some (calculateImpactScore latestRelease)).

Section Ledger.

(** [new Date(s).getTime()]: the time value of a date string, NaN for an
    invalid date.  Outside the ISO format the result depends on the
    engine, so the ledger is parametric in it. *)
Variable getTime : string -> number.

Definition releaseTime (releases : JsObject Release.t) (key : string) : number :=
  match JsObject.get key releases with
  | Some release => getTime (Release.date release)
  | None => NaN
  end.

(** [Object.keys(releases).sort((a, b) => time(releases[b]) -
    time(releases[a]))[0]] *)
Definition latestReleaseKey (releases : JsObject Release.t) : option string :=
  hd_error
    (JsArray.sort
       (fun a b => JsNumber.sub (releaseTime releases b) (releaseTime releases a))
       (JsObject.keys releases)).

Definition withReleases (v : VersionInfo.t) (releases : JsObject Release.t)
  : VersionInfo.t :=
  VersionInfo.mk (VersionInfo.version v)
    (VersionInfo.major v) (VersionInfo.minor v) (VersionInfo.update v)
    (VersionInfo.build v) (VersionInfo.changelog v) (Some releases).

(** The document [updateVersion] holds just before it is migrated again and
    written. *)
Definition updatedVersion (now : string) (type : IncrementType)
    (changelogEntry : string) (releaseInfo : option ReleaseInfo.t)
    (currentVersion : VersionInfo.t) : VersionInfo.t :=
  let newVersion := incrementVersion currentVersion type in
  (* Add changelog entry *)
  let newVersion :=
    VersionInfo.mk (VersionInfo.version newVersion)
      (VersionInfo.major newVersion) (VersionInfo.minor newVersion)
      (VersionInfo.update newVersion) (VersionInfo.build newVersion)
      (JsObject.set (VersionInfo.version newVersion) changelogEntry
         (VersionInfo.changelog newVersion))
      (VersionInfo.releases newVersion) in
  (* Add release information if provided *)
  match releaseInfo with
  | None => newVersion
  | Some releaseInfo =>
      let releases :=
        match VersionInfo.releases newVersion with
        | Some releases => releases
        | None => []
        end in
      let newVersion := withReleases newVersion releases in
      let version := VersionInfo.version newVersion in
      match ReleaseInfo.consolidateWithPrevious releaseInfo with
      | Some true =>
          if (0 <? List.length (JsObject.keys releases))%nat then
            match latestReleaseKey releases with
            | Some latestReleaseKey =>
                match JsObject.get latestReleaseKey releases with
                | Some latestRelease =>
                    if (Release.title latestRelease
                        =? ReleaseInfo.title releaseInfo)%string
                    then
                      (* Update the existing release; it is the object stored
                         under latestReleaseKey *)
                      let latestRelease :=
                        consolidatedRelease now version latestRelease
                          releaseInfo in
                      let releases :=
                        JsObject.set latestReleaseKey latestRelease releases in
                      (* Update the key to the new version *)
                      if negb (latestReleaseKey =? version)%string then
                        withReleases newVersion
                          (JsObject.delete latestReleaseKey
                             (JsObject.set version latestRelease releases))
                      else withReleases newVersion releases
                    else createNewRelease now newVersion releaseInfo type
                | None => createNewRelease now newVersion releaseInfo type
                end
            | None => createNewRelease now newVersion releaseInfo type
            end
          else createNewRelease now newVersion releaseInfo type
      | _ => createNewRelease now newVersion releaseInfo type
      end
  end.

(** [updateVersion]: the file after the call and the returned document.
    [migrateVersionFormat] changes its argument in place, so the returned
    [newVersion] is the migrated document that was written. *)
Definition updateVersion (now : string) (type : IncrementType)
    (changelogEntry : string) (releaseInfo : option ReleaseInfo.t)
    (file : option VersionData.t) : option VersionData.t * VersionInfo.t :=
  let currentVersion := getCurrentVersion file in
  let newVersion :=
    updatedVersion now type changelogEntry releaseInfo currentVersion in
  (* Write to file - make sure to preserve migration *)
  let finalVersion := migrateVersionFormat (asAny newVersion) in
  (Some (asAny finalVersion), finalVersion).

(** Auto-increment build number - called during build process *)
Definition autoIncrementBuild (now buildDescription : string)
    (file : option VersionData.t) : option VersionData.t * VersionInfo.t :=
  updateVersion now Build buildDescription
    (Some (ReleaseInfo.mk
       ("Build Update - " ++ buildDescription)
       ("Automated build increment: " ++ buildDescription)
       [buildDescription]
       (Some ["Build number auto-incremented during development"])
       None))
    file.

(** Increment update version - for new features/enhancements *)
Definition incrementUpdate (now title summary : string)
    (changes : list string) (technical : option (list string))
    (file : option VersionData.t) : option VersionData.t * VersionInfo.t :=
  updateVersion now Update (title ++ ": " ++ summary)
    (Some (ReleaseInfo.mk title summary changes technical None)) file.

(** Increment minor version - requires user approval *)
Definition incrementMinor (now title summary : string)
    (changes : list string) (technical : option (list string))
    (file : option VersionData.t) : option VersionData.t * VersionInfo.t :=
  updateVersion now Minor (title ++ ": " ++ summary)
    (Some (ReleaseInfo.mk title summary changes technical None)) file.

(** Increment major version - requires user approval *)
Definition incrementMajor (now title summary : string)
    (changes : list string) (technical : option (list string))
    (file : option VersionData.t) : option VersionData.t * VersionInfo.t :=
  updateVersion now Major (title ++ ": " ++ summary)
    (Some (ReleaseInfo.mk title summary changes technical None)) file.

End Ledger.

(** [addChangelogEntry]: the file after the call. *)
Definition addChangelogEntry (changelogEntry : string)
    (file : option VersionData.t) : option VersionData.t :=
  let currentVersion := getCurrentVersion file in
  Some (asAny
    (VersionInfo.mk (VersionInfo.version currentVersion)
       (VersionInfo.major currentVersion) (VersionInfo.minor currentVersion)
       (VersionInfo.update currentVersion) (VersionInfo.build currentVersion)
       (JsObject.set (VersionInfo.version currentVersion) changelogEntry
          (VersionInfo.changelog currentVersion))
       (VersionInfo.releases currentVersion))).

(** [addRelease]: the file after the call. *)
Definition addRelease (release : Release.t) (file : option VersionData.t)
  : option VersionData.t :=
  let currentVersion := getCurrentVersion file in
  let releases :=
    match VersionInfo.releases currentVersion with
    | Some releases => releases
    | None => []
    end in
  Some (asAny
    (withReleases currentVersion
       (JsObject.set (Release.version release) release releases))).

End VersionManager.

(* ------------------------------------------------------------------ *)
(** ** Dates *)

Module JsDate.

(** [len] decimal digits of [s] from position [start]. *)
Definition field (s : string) (start len : nat) : option Z :=
  let part := String.substring start len s in
  if (String.length part =? len)%nat
     && forallb JsString.isDigit (list_ascii_of_string part)
  then option_map Z.of_N (JsNumber.parseDigits 10 part None)
  else None.

Definition separator (s : string) (pos : nat) (c : ascii) : bool :=
  match String.get pos s with
  | Some c' => (c =? c')%char
  | None => false
  end.

Definition isLeapYear (y : Z) : bool :=
  ((y mod 4 =? 0) && negb (y mod 100 =? 0)) || (y mod 400 =? 0).

Definition daysInMonth (y m : Z) : Z :=
  if m =? 2 then (if isLeapYear y then 29 else 28)
  else if (m =? 4) || (m =? 6) || (m =? 9) || (m =? 11) then 30
  else 31.

(** Days from 1970-01-01 to the civil date [y]-[m]-[d]. *)
Definition daysFromCivil (y m d : Z) : Z :=
  let y := if m <=? 2 then y - 1 else y in
  let era := y / 400 in
  let yoe := y - era * 400 in
  let mp := (m + 9) mod 12 in
  let doy := (153 * mp + 2) / 5 + d - 1 in
  let doe := yoe * 365 + yoe / 4 - yoe / 100 + doy in
  era * 146097 + doe - 719468.

(** The time value of a string in the format [toISOString] writes,
    YYYY-MM-DDTHH:mm:ss.sssZ; NaN for any other string.  On that format it
    is what every engine's [new Date(s).getTime()] returns. *)
Definition isoTime (s : string) : number :=
  if (String.length s =? 24)%nat
     && separator s 4 "-" && separator s 7 "-" && separator s 10 "T"
     && separator s 13 ":" && separator s 16 ":" && separator s 19 "."
     && separator s 23 "Z"
  then
    match field s 0 4, field s 5 2, field s 8 2,
          field s 11 2, field s 14 2, field s 17 2, field s 20 3 with
    | Some y, Some m, Some d, Some hh, Some mm, Some ss, Some ms =>
        if (1 <=? m) && (m <=? 12) && (1 <=? d) && (d <=? daysInMonth y m)
           && (hh <=? 23) && (mm <=? 59) && (ss <=? 59)
        then Num ((((daysFromCivil y m d * 24 + hh) * 60 + mm) * 60 + ss)
                  * 1000 + ms)
        else NaN
    | _, _, _, _, _, _, _ => NaN
    end
  else NaN.

End JsDate.

(* ------------------------------------------------------------------ *)
(** ** scripts/increment-build.ts and scripts/increment-update.js *)

Module Scripts.

(** [process.argv.slice(start)] *)
Definition slice (start : nat) (argv : list string) : list string :=
  skipn start argv.

(** scripts/increment-build.ts: the description is the first argument of
    the script, [process.argv[2]]. *)
Definition incrementBuild (getTime : string -> number) (now : string)
    (argv : list string) (file : option VersionData.t)
  : option VersionData.t * VersionInfo.t :=
  let buildDescription := orElse (nth_error argv 2) "Development build" in
  VersionManager.autoIncrementBuild getTime now buildDescription file.

(** The update script: title, summary, then the changes. *)
Definition incrementUpdate (getTime : string -> number) (now : string)
    (argv : list string) (file : option VersionData.t)
  : option VersionData.t * VersionInfo.t :=
  let title := orElse (nth_error argv 2) "Feature Update" in
  let summary :=
    orElse (nth_error argv 3) "New feature or enhancement added" in
  let changes :=
    if (0 <? List.length (slice 4 argv))%nat then slice 4 argv
    else ["Feature enhancement"] in
  VersionManager.incrementUpdate getTime now title summary changes None file.

End Scripts.

(* ------------------------------------------------------------------ *)
(** ** server/utils/settings-validator.ts *)

(** The values a settings object can hold; of an array and of an object
    the validator only counts the keys. *)
#[warnings="-register-all"]
Inductive JsValue : Type :=
| VUndefined
| VNull
| VBoolean (b : bool)
| VNumber (n : number)
| VString (s : string)
| VArray (items : list JsValue)
| VObject (entries : list (string * JsValue)).

Module SettingsValidator.

(** Get all settable field names from the schema (excluding id and userId) *)
Definition getSettingsFields : list string :=
  ["aiProvider"; "apiKeys"; "promptTemplates"; "defaultModifiers";
   "splitMode"; "theme"; "inputHistory"; "integrations"].

(** [arr.includes(x)] on an array of strings. *)
Definition includes (arr : list string) (x : string) : bool :=
  existsb (String.eqb x) arr.

Module Completeness.
Record t : Type := mk {
  isValid : bool;
  missingFields : list string;
  extraFields : list string
}.
End Completeness.

(** Validate that all schema fields are included in the defaults object *)
Definition validateDefaultsCompleteness (defaults : JsObject JsValue)
  : Completeness.t :=
  let schemaFields := getSettingsFields in
  let defaultFields := JsObject.keys defaults in
  let missingFields :=
    filter (fun field => negb (includes defaultFields field)) schemaFields in
  let extraFields :=
    filter (fun field => negb (includes schemaFields field)) defaultFields in
  Completeness.mk
    ((List.length missingFields =? 0)%nat && (List.length extraFields =? 0)%nat)
    missingFields extraFields.

Module Validation.
Record t : Type := mk {
  isValid : bool;
  unexpectedFields : list string;
  recommendations : list string
}.
End Validation.

(** [Object.keys(value).length] when [value] is truthy and
    [typeof value === 'object']. *)
Definition objectKeyCount (value : option JsValue) : option nat :=
  match value with
  | Some (VArray items) => Some (List.length items)
  | Some (VObject entries) => Some (List.length entries)
  | _ => None
  end.

(** Validate that settings data contains all expected fields *)
Definition validateSettingsData (data : JsObject JsValue) : Validation.t :=
  let schemaFields := getSettingsFields in
  let dataFields := JsObject.keys data in
  let unexpectedFields :=
    filter (fun field => negb (includes schemaFields field)) dataFields in
  let recommendations := [] in
  let recommendations :=
    if (0 <? List.length unexpectedFields)%nat
    then (recommendations
          ++ [("Consider adding these fields to the schema: "
               ++ JsString.join ", " unexpectedFields)%string])%list
    else recommendations in
  (* Check for common patterns that might indicate issues *)
  let recommendations :=
    match objectKeyCount (JsObject.get "integrations" data) with
    | Some integrationCount =>
        if (0 <? integrationCount)%nat
        then (recommendations
              ++ [("Integration data found with "
                   ++ JsNumber.toString (Z.of_nat integrationCount)
                   ++ " integration(s) - ensure storage layer preserves this")%string])%list
        else recommendations
    | None => recommendations
    end in
  Validation.mk (List.length unexpectedFields =? 0)%nat
    unexpectedFields recommendations.

End SettingsValidator.

(** The columns of the [userSettings] table of shared/schema.ts, without
    [id] and [userId]. *)
Definition userSettingsColumns : list string :=
  ["aiProvider"; "apiKeys"; "theme"; "preferences"; "notifications";
   "customSettings"].

(* ------------------------------------------------------------------ *)
(** ** Vocabulary of the specification *)

(** Base points by release type, as the specification lists them. *)
Definition basePoints (type : string) : Z :=
  if (type =? "major")%string then 100
  else if (type =? "feature")%string then 70
  else if (type =? "update")%string then 40
  else if (type =? "fix")%string then 20
  else 0.

(** [keyword] occurs in [text] as a substring. *)
Definition occursIn (keyword text : string) : Prop :=
  exists before after, text = before ++ keyword ++ after.

Definition technicalEntries (release : Release.t) : list string :=
  match Release.technical release with
  | Some technical => technical
  | None => []
  end.

Definition hasFourParts (s : string) : bool :=
  (List.length (JsString.split "." s) =? 4)%nat.

(** The [i]-th numeric component of a parsed version. *)
Definition component (v : ParsedVersion.t) (i : nat) : number :=
  match i with
  | 0%nat => ParsedVersion.major v
  | 1%nat => ParsedVersion.minor v
  | 2%nat => ParsedVersion.update v
  | _ => ParsedVersion.build v
  end.

(** A segment that cannot start a number: its first code unit is neither
    white space, nor a sign, nor a decimal digit. *)
Definition nonNumeric (segment : string) : bool :=
  match segment with
  | EmptyString => false
  | String c _ =>
      negb (JsString.isWhiteSpace c) && negb (c =? "-")%char
      && negb (c =? "+")%char && negb (JsString.isDigit c)
  end.

(** No key of the dictionary is a 3-part version string. *)
Definition noLegacyKey {V : Type} (o : JsObject V) : bool :=
  forallb (fun e => negb (VersionManager.hasThreeParts (fst e))) o.

Definition noLegacyRelease (releases : JsObject Release.t) : bool :=
  forallb
    (fun e => negb (VersionManager.hasThreeParts (fst e))
              && negb (VersionManager.hasThreeParts (Release.version (snd e))))
    releases.

(** A document in the state migration leaves it in: dictionaries that are
    object enumerations, and no 3-part version string as the top-level
    version, as a key or as a release's version. *)
Definition migrated (v : VersionInfo.t) : bool :=
  negb (VersionManager.hasThreeParts (VersionInfo.version v))
  && JsObject.wf (VersionInfo.changelog v)
  && noLegacyKey (VersionInfo.changelog v)
  && match VersionInfo.releases v with
     | Some releases => JsObject.wf releases && noLegacyRelease releases
     | None => true
     end.

(** A version string in the legacy 3-part or the current 4-part form. *)
Definition versionLike (s : string) : bool :=
  VersionManager.hasThreeParts s || hasFourParts s.

(** A persisted document whose version, keys and release versions are all
    version strings, legacy or current. *)
Definition versionKeyed (d : VersionData.t) : bool :=
  versionLike (VersionData.version d)
  && forallb (fun e => versionLike (fst e)) (VersionData.changelog d)
  && match VersionData.releases d with
     | Some releases =>
         forallb
           (fun e => versionLike (fst e)
                     && versionLike (Release.version (snd e)))
           releases
     | None => true
     end.

(** Every version string of the document has 4 parts. *)
Definition fourPartsThroughout (v : VersionInfo.t) : bool :=
  hasFourParts (VersionInfo.version v)
  && forallb (fun e => hasFourParts (fst e)) (VersionInfo.changelog v)
  && match VersionInfo.releases v with
     | Some releases =>
         forallb
           (fun e => hasFourParts (fst e)
                     && hasFourParts (Release.version (snd e)))
           releases
     | None => true
     end.

(** An already-migrated raw document: build present, the top-level
    version, every key and every release's version 4-part, and
    dictionaries that are object enumerations, as [JSON.parse] builds
    them. *)
Definition alreadyMigrated (d : VersionData.t) : bool :=
  match VersionData.build d with Some _ => true | None => false end
  && hasFourParts (VersionData.version d)
  && JsObject.wf (VersionData.changelog d)
  && forallb (fun e => hasFourParts (fst e)) (VersionData.changelog d)
  && match VersionData.releases d with
     | Some releases =>
         JsObject.wf releases
         && forallb
              (fun e => hasFourParts (fst e)
                        && hasFourParts (Release.version (snd e)))
              releases
     | None => true
     end.



(** The releases of the document [getCurrentVersion] reads from the file. *)
Definition loadedReleases (file : option VersionData.t) : JsObject Release.t :=
  match VersionInfo.releases (VersionManager.getCurrentVersion file) with
  | Some releases => releases
  | None => []
  end.

(** The release a call with [releaseInfo] consolidates with, if any: the
    one under the first key after sorting by date, provided consolidation
    is asked for and the titles are equal. *)
Definition consolidationTarget (getTime : string -> number)
    (releaseInfo : ReleaseInfo.t) (releases : JsObject Release.t)
  : option (string * Release.t) :=
  match ReleaseInfo.consolidateWithPrevious releaseInfo with
  | Some true =>
      match VersionManager.latestReleaseKey getTime releases with
      | Some key =>
          match JsObject.get key releases with
          | Some latest =>
              if (Release.title latest =? ReleaseInfo.title releaseInfo)%string
              then Some (key, latest) else None
          | None => None
          end
      | None => None
      end
  | _ => None
  end.

(** The time of a release date, 0 standing in for an invalid date. *)
Definition timeOr0 (getTime : string -> number)
    (releases : JsObject Release.t) (key : string) : Z :=
  match VersionManager.releaseTime getTime releases key with
  | Num t => t
  | NaN => 0
  end.

(** [a] is a valid time later than the valid time [b]. *)
Definition laterThan (a b : number) : Prop :=
  match a, b with
  | Num x, Num y => y < x
  | _, _ => False
  end.

(** The release under [key] has a date strictly later than every other
    release of the dictionary. *)
Definition isLatest (getTime : string -> number)
    (releases : JsObject Release.t) (key : string) : Prop :=
  In key (JsObject.keys releases)
  /\ forall key', In key' (JsObject.keys releases) -> key' <> key ->
       laterThan (VersionManager.releaseTime getTime releases key)
                 (VersionManager.releaseTime getTime releases key').

(** The four numeric components of a document. *)
Definition versionNumbers (v : VersionInfo.t) : Z * Z * Z * Z :=
  (VersionInfo.major v, VersionInfo.minor v, VersionInfo.update v,
   VersionInfo.build v).

(** [a] comes before [b] in the order of versions: major first, then
    minor, update and build. *)
Definition versionBefore (a b : Z * Z * Z * Z) : Prop :=
  let '(a1, a2, a3, a4) := a in
  let '(b1, b2, b3, b4) := b in
  a1 < b1
  \/ (a1 = b1
      /\ (a2 < b2 \/ (a2 = b2 /\ (a3 < b3 \/ (a3 = b3 /\ a4 < b4))))).

(** The place of a level among the five tiers. *)
Definition tierRank (level : string) : nat :=
  if (level =? "Critical")%string then 4
  else if (level =? "High")%string then 3
  else if (level =? "Medium")%string then 2
  else if (level =? "Low")%string then 1
  else 0.

Definition noSpace (s : string) : bool :=
  JsString.allChars (fun c => negb (c =? " ")%char) s.

(** [release] with one more change, or one more technical entry, at the
    end. *)
Definition addChange (release : Release.t) (change : string) : Release.t :=
  Release.mk (Release.version release) (Release.date release)
    (Release.title release) (Release.type release) (Release.summary release)
    (Release.changes release ++ [change])%list
    (Release.technical release) (Release.impactScore release).

Definition addTechnical (release : Release.t) (entry : string) : Release.t :=
  Release.mk (Release.version release) (Release.date release)
    (Release.title release) (Release.type release) (Release.summary release)
    (Release.changes release)
    (Some (technicalEntries release ++ [entry])%list)
    (Release.impactScore release).

(** The score [after] is not lower than the score [before]: both are
    numbers in that order, or neither is a number. *)
Definition notLower (before after : number) : Prop :=
  match before, after with
  | Num x, Num y => x <= y
  | NaN, NaN => True
  | _, _ => False
  end.

(** [release] with its texts in lower case. *)
Definition lowerCased (release : Release.t) : Release.t :=
  Release.mk (Release.version release) (Release.date release)
    (JsString.toLowerCase (Release.title release)) (Release.type release)
    (JsString.toLowerCase (Release.summary release))
    (map JsString.toLowerCase (Release.changes release))
    (option_map (map JsString.toLowerCase) (Release.technical release))
    (Release.impactScore release).

(** A non-negative integer below 10^21: up to there [toString] writes a
    number in plain decimal notation, from there on with an exponent. *)
Definition plainDecimal (z : Z) : Prop := 0 <= z < 1000000000000000000000.

(** [Number.MAX_SAFE_INTEGER], 2^53 - 1. *)
Definition MAX_SAFE_INTEGER : Z := 9007199254740991.

(** A non-negative integer [z] such that [z] and [z + 1] are safe
    integers: [z + 1] is then computed exactly. *)
Definition incrementable (z : Z) : Prop := 0 <= z < MAX_SAFE_INTEGER.

(** The four numbers of the document are incrementable. *)
Definition incrementableNumbers (v : VersionInfo.t) : Prop :=
  incrementable (VersionInfo.major v) /\ incrementable (VersionInfo.minor v)
  /\ incrementable (VersionInfo.update v)
  /\ incrementable (VersionInfo.build v).


(** No key of the dictionary is [__proto__], the one key under which an
    assignment [o[k] = v] stores nothing: it sets the prototype of [o]. *)
Definition ordinaryKeys {V : Type} (o : JsObject V) : bool :=
  forallb (fun e => negb (fst e =? "__proto__")%string) o.

(** The dictionaries of the file have ordinary keys only. *)
Definition ordinaryFile (file : option VersionData.t) : bool :=
  match file with
  | Some d =>
      ordinaryKeys (VersionData.changelog d)
      && match VersionData.releases d with
         | Some releases => ordinaryKeys releases
         | None => true
         end
  | None => true
  end.

(** The changelog of the document [getCurrentVersion] reads from the file. *)
Definition loadedChangelog (file : option VersionData.t) : JsObject string :=
  VersionInfo.changelog (VersionManager.getCurrentVersion file).

(** The call whose result is [result] recorded [changelogEntry] under the
    new version and stored a release of the given type and texts there,
    next to the releases [loaded]. *)
Definition recordsRelease (result : option VersionData.t * VersionInfo.t)
    (loaded : JsObject Release.t) (type title summary : string)
    (changes : list string) (technical : option (list string))
    (changelogEntry : string) : Prop :=
  let version := VersionInfo.version (snd result) in
  exists created,
    VersionInfo.releases (snd result)
    = Some (JsObject.set version created loaded)
    /\ Release.version created = version
    /\ Release.type created = type
    /\ Release.title created = title
    /\ Release.summary created = summary
    /\ Release.changes created = changes
    /\ Release.technical created = technical
    /\ Release.impactScore created = Some (calculateImpactScore created)
    /\ JsObject.get version (VersionInfo.changelog (snd result))
       = Some changelogEntry.

(* ------------------------------------------------------------------ *)
(** ** Example documents *)

Module Examples.

Definition fixLogin (version date : string) : Release.t :=
  Release.mk version date "Fix login" "fix" "S1" ["A"] None (Some (Num 25)).

(** A document with two releases of the same title; the later one is the
    current version. *)
Definition twoFixes : option VersionData.t :=
  Some (VersionData.mk "1.02.003.000" 1 2 3 (Some 0)
          [("1.02.002.000", "Fix login"); ("1.02.003.000", "Fix login")]
          (Some [("1.02.002.000",
                  fixLogin "1.02.002.000" "2025-08-16T09:30:00.000Z");
                 ("1.02.003.000",
                  fixLogin "1.02.003.000" "2025-08-17T01:04:00.000Z")])).

Definition fixLoginAgain : ReleaseInfo.t :=
  ReleaseInfo.mk "Fix login" "S2" ["A"; "B"] None (Some true).

Definition unrelatedFix : ReleaseInfo.t :=
  ReleaseInfo.mk "Unrelated fix" "S2" ["A"; "B"] None (Some true).

Definition later : string := "2025-08-18T07:00:00.000Z".

(** A release filed ahead of time under the version the next build
    increment of the default document produces. *)
Definition planned : Release.t :=
  Release.mk "0.01.012.001" "2025-08-17T01:04:00.000Z" "Planned" "fix"
    "Announced early" ["A"] None (Some (Num 25)).


(** A fully-formed release whose version string has 3 parts. *)
Definition legacyRelease : Release.t :=
  fixLogin "1.02.003" "2025-08-17T01:04:00.000Z".

End Examples.

(* ------------------------------------------------------------------ *)
(** * Properties *)

(** ** Strings *)

Section StringFacts.

Import JsString.

Lemma append_empty_r (s : string) : s ++ "" = s.
Proof. induction s; simpl; congruence. Qed.

Lemma append_assoc (a b c : string) : (a ++ b) ++ c = a ++ (b ++ c).
Proof. induction a; simpl; congruence. Qed.

Lemma length_append (a b : string) :
  String.length (a ++ b) = (String.length a + String.length b)%nat.
Proof. induction a; simpl; congruence. Qed.

Lemma allChars_append p (a b : string) :
  allChars p (a ++ b) = allChars p a && allChars p b.
Proof.
  induction a as [|c a IH]; simpl; [reflexivity|].
  rewrite IH. apply andb_assoc.
Qed.

Lemma allChars_impl (p q : ascii -> bool) (s : string) :
  (forall c, p c = true -> q c = true) ->
  allChars p s = true -> allChars q s = true.
Proof.
  intros Hpq. induction s as [|c s IH]; simpl; [reflexivity|].
  intros H. apply andb_true_iff in H as [Hc Hs].
  rewrite (Hpq _ Hc), (IH Hs). reflexivity.
Qed.

Lemma allChars_repeatChar p n c :
  p c = true -> allChars p (repeatChar n c) = true.
Proof. intros Hc. induction n; simpl; [reflexivity|]. now rewrite Hc, IHn. Qed.

Lemma split_not_nil sep s : split sep s <> [].
Proof.
  destruct s as [|c s]; simpl; [discriminate|].
  destruct (c =? sep)%char; [discriminate|].
  destruct (split sep s); discriminate.
Qed.

Lemma split_cons_other sep c s :
  (c =? sep)%char = false ->
  exists h t, split sep s = h :: t /\ split sep (String c s) = String c h :: t.
Proof.
  intros Hc. simpl. rewrite Hc.
  destruct (split sep s) as [|h t] eqn:E.
  - now apply split_not_nil in E.
  - now exists h, t.
Qed.

(** A string without the separator is a single segment. *)
Lemma split_single sep s :
  allChars (fun c => negb (c =? sep)%char) s = true -> split sep s = [s].
Proof.
  induction s as [|c s IH]; simpl; [reflexivity|].
  intros H. apply andb_true_iff in H as [Hc Hs].
  apply negb_true_iff in Hc. rewrite Hc, (IH Hs). reflexivity.
Qed.

(** The first separator ends the first segment. *)
Lemma split_append sep a b :
  allChars (fun c => negb (c =? sep)%char) a = true ->
  split sep (a ++ String sep b) = a :: split sep b.
Proof.
  induction a as [|c a IH]; simpl.
  - intros _. now rewrite Ascii.eqb_refl.
  - intros H. apply andb_true_iff in H as [Hc Ha].
    apply negb_true_iff in Hc. rewrite Hc, (IH Ha). reflexivity.
Qed.

Lemma split_length_append sep a b :
  (List.length (split sep (a ++ b)) + 1
   = List.length (split sep a) + List.length (split sep b))%nat.
Proof.
  induction a as [|c a IH].
  - simpl. lia.
  - change (String c a ++ b) with (String c (a ++ b)).
    destruct (c =? sep)%char eqn:Hc.
    + simpl. rewrite Hc. simpl. lia.
    + destruct (split_cons_other sep c (a ++ b) Hc) as (h & t & E1 & E2).
      destruct (split_cons_other sep c a Hc) as (h' & t' & E1' & E2').
      rewrite E2, E2'. rewrite E1, E1' in IH. simpl in *. lia.
Qed.

Lemma split_segments_noSep sep s :
  Forall (fun seg => allChars (fun c => negb (c =? sep)%char) seg = true)
         (split sep s).
Proof.
  induction s as [|c s IH]; simpl.
  - repeat constructor.
  - destruct (c =? sep)%char eqn:Hc.
    + constructor; [reflexivity | exact IH].
    + destruct (split sep s) as [|h t] eqn:E.
      * now apply split_not_nil in E.
      * inversion IH; subst. constructor; [|assumption].
        simpl. now rewrite Hc.
Qed.

(** Splitting undoes joining segments that are free of the separator. *)
Lemma split_join sep (l : list string) :
  l <> [] ->
  Forall (fun seg => allChars (fun c => negb (c =? sep)%char) seg = true) l ->
  split sep (join (String sep "") l) = l.
Proof.
  induction l as [|a l IH]; [congruence|].
  intros _ Hall. inversion Hall as [|? ? Ha Hl]; subst.
  destruct l as [|b l].
  - simpl. now apply split_single.
  - unfold join in *. simpl String.concat.
    change (a ++ String sep "" ++ String.concat (String sep "") (b :: l))
      with (a ++ String sep (String.concat (String sep "") (b :: l))).
    rewrite (split_append _ _ _ Ha). f_equal.
    apply IH; [discriminate | assumption].
Qed.

(** [includes] decides occurrence as a substring. *)
Lemma startsWith_spec s p :
  startsWith s p = true <-> exists after, s = p ++ after.
Proof.
  revert s. induction p as [|a p IH]; intros s; simpl.
  - split; [intros _; now exists s | reflexivity].
  - destruct s as [|b s].
    + split; [discriminate | intros [x Hx]; discriminate].
    + rewrite andb_true_iff, IH. split.
      * intros [Hab [x Hx]]. apply Ascii.eqb_eq in Hab. subst.
        now exists x.
      * intros [x Hx]. injection Hx as -> ->. split.
        -- apply Ascii.eqb_refl.
        -- now exists x.
Qed.

Lemma includes_spec s search :
  includes s search = true <-> occursIn search s.
Proof.
  unfold occursIn. induction s as [|c s IH].
  - simpl. rewrite orb_false_r, startsWith_spec. split.
    + intros [x Hx]. now exists "", x.
    + intros (b & a & H). destruct b; [now exists a | discriminate].
  - simpl. rewrite orb_true_iff, startsWith_spec, IH. split.
    + intros [[x Hx] | (b & a & H)].
      * exists "", x. exact Hx.
      * exists (String c b), a. simpl. now rewrite H.
    + intros (b & a & H). destruct b as [|c' b].
      * left. now exists a.
      * right. simpl in H. injection H as -> ->. now exists b, a.
Qed.

End StringFacts.

(** ** Numbers *)

Section NumberFacts.

Import JsString JsNumber.

Lemma code_ascii_of_N n : (n < 256)%N -> code (ascii_of_N n) = n.
Proof. apply N_ascii_embedding. Qed.

Lemma isDigit_range c :
  isDigit c = true <-> (48 <= code c <= 57)%N.
Proof.
  unfold isDigit. rewrite andb_true_iff, !N.leb_le. tauto.
Qed.

Lemma isDigit_digitChar d : (d < 10)%N -> isDigit (digitChar d) = true.
Proof.
  intros Hd. apply isDigit_range. unfold digitChar.
  rewrite code_ascii_of_N by lia. lia.
Qed.

Lemma digitValue_digitChar d :
  (d < 10)%N -> digitValue 10 (digitChar d) = Some d.
Proof.
  intros Hd. unfold digitValue, digitChar.
  rewrite code_ascii_of_N by lia.
  replace ((48 <=? 48 + d) && (48 + d <=? 57))%N with true
    by (symmetry; apply andb_true_iff; split; apply N.leb_le; lia).
  replace (48 + d - 48)%N with d by lia.
  now apply N.ltb_lt in Hd as ->.
Qed.

(** A digit is none of the code units that are not digits. *)
Lemma isDigit_neq c c0 :
  isDigit c = true -> isDigit c0 = false -> (c =? c0)%char = false.
Proof.
  intros Hc Hc0. apply Ascii.eqb_neq. intros ->. congruence.
Qed.

Lemma isDigit_not_whiteSpace c : isDigit c = true -> isWhiteSpace c = false.
Proof.
  rewrite isDigit_range. intros H. unfold isWhiteSpace.
  rewrite !orb_false_iff, andb_false_iff, !N.leb_gt, !N.eqb_neq. lia.
Qed.

Lemma isDigit_noDot c : isDigit c = true -> negb (c =? ".")%char = true.
Proof. intros H. now rewrite (isDigit_neq c "." H). Qed.

Lemma allDigits_digitsOf fuel n rest :
  allChars isDigit rest = true -> allChars isDigit (digitsOf fuel n rest) = true.
Proof.
  revert n rest. induction fuel as [|fuel IH]; intros n rest Hrest; simpl.
  - exact Hrest.
  - assert (Hacc : allChars isDigit (String (digitChar (n mod 10)) rest) = true).
    { simpl. rewrite Hrest, isDigit_digitChar; [reflexivity|].
      apply N.mod_lt. discriminate. }
    destruct (n / 10 =? 0)%N; [exact Hacc | now apply IH].
Qed.

Lemma length_digitsOf fuel n rest :
  (String.length rest <= String.length (digitsOf fuel n rest))%nat.
Proof.
  revert n rest. induction fuel as [|fuel IH]; intros n rest; simpl.
  - lia.
  - destruct (n / 10 =? 0)%N; simpl.
    + lia.
    + specialize (IH (n / 10)%N (String (digitChar (n mod 10)) rest)).
      simpl in IH. lia.
Qed.

(** Reading back the digits [digitsOf] wrote continues from [acc] shifted
    by the number of digits. *)
Lemma parseDigits_digitsOf fuel n rest :
  (n < 2 ^ N.of_nat (S fuel))%N ->
  exists k, forall acc,
    parseDigits 10 (digitsOf (S fuel) n rest) acc
    = parseDigits 10 rest
        (Some (10 ^ k * match acc with Some a => a | None => 0 end + n)%N).
Proof.
  revert n rest. induction fuel as [|fuel IH]; intros n rest Hn.
  - exists 1%N. intros acc.
    assert (n < 2)%N by (simpl in Hn; lia).
    assert (E : (n / 10 = 0)%N) by (apply N.div_small; lia).
    cbn [digitsOf]. apply N.eqb_eq in E as E'. rewrite E'.
    cbn [parseDigits]. rewrite N.mod_small by lia.
    rewrite digitValue_digitChar by lia. reflexivity.
  - cbn [digitsOf]. destruct (n / 10 =? 0)%N eqn:E.
    + exists 1%N. intros acc. apply N.eqb_eq in E.
      assert (n < 10)%N.
      { destruct (N.lt_ge_cases n 10) as [|Hge]; [assumption|].
        apply (N.Div0.div_le_mono _ _ 10) in Hge.
        rewrite N.div_same in Hge by discriminate. lia. }
      cbn [parseDigits]. rewrite N.mod_small by lia.
      rewrite digitValue_digitChar by lia. reflexivity.
    + destruct (IH (n / 10)%N (String (digitChar (n mod 10)) rest))
        as [k Hk].
      { rewrite Nat2N.inj_succ, N.pow_succ_r' in Hn.
        apply N.Div0.div_lt_upper_bound. lia. }
      exists (N.succ k). intros acc.
      change (digitsOf (S fuel) (n / 10)
                (String (digitChar (n mod 10)) rest))
        with (digitsOf (S fuel) (n / 10)%N
                (String (digitChar (n mod 10)) rest)) in *.
      cbn [digitsOf] in Hk. cbn [digitsOf]. rewrite Hk.
      cbn [parseDigits].
      rewrite digitValue_digitChar by (apply N.mod_lt; discriminate).
      f_equal. f_equal. rewrite N.pow_succ_r'.
      pose proof (N.div_mod n 10 ltac:(discriminate)). nia.
Qed.

Lemma parseDigits_decimal n acc :
  (acc = None \/ acc = Some 0%N) ->
  parseDigits 10 (decimal n) acc = Some n.
Proof.
  intros Hacc. unfold decimal.
  destruct (parseDigits_digitsOf (N.to_nat (N.log2 n)) n EmptyString)
    as [k Hk].
  { rewrite Nat2N.inj_succ, N2Nat.id.
    destruct n as [|p]; [reflexivity|]. apply N.log2_spec. reflexivity. }
  rewrite Hk. cbn [parseDigits]. f_equal.
  destruct Hacc as [-> | ->]; lia.
Qed.

Lemma parseDigits_zeros j rest acc :
  (acc = None \/ acc = Some 0%N) ->
  exists acc', (acc' = None \/ acc' = Some 0%N)
    /\ parseDigits 10 (repeatChar j "0" ++ rest) acc = parseDigits 10 rest acc'.
Proof.
  revert acc. induction j as [|j IH]; intros acc Hacc.
  - exists acc. now split.
  - destruct (IH (Some 0%N)) as (acc' & Hacc' & E); [now right|].
    exists acc'. split; [assumption|].
    simpl. rewrite <- E. destruct Hacc as [-> | ->]; reflexivity.
Qed.

Lemma toString_nonneg z : 0 <= z -> toString z = decimal (Z.to_N z).
Proof. destruct z; [reflexivity | reflexivity | lia]. Qed.

Lemma allDigits_decimal n : allChars isDigit (decimal n) = true.
Proof. now apply allDigits_digitsOf. Qed.

Lemma decimal_not_empty n : decimal n <> "".
Proof.
  unfold decimal. intros E.
  pose proof (length_digitsOf (S (N.to_nat (N.log2 n))) n "") as H.
  cbn [digitsOf] in *.
  destruct (n / 10 =? 0)%N; [discriminate|].
  pose proof (length_digitsOf (N.to_nat (N.log2 n)) (n / 10)%N
                (String (digitChar (n mod 10)) "")) as H'.
  rewrite E in H'. simpl in H'. lia.
Qed.

(** On a non-empty string of decimal digits [parseInt] reads all of it. *)
Lemma parseInt_digits s :
  s <> "" -> allChars isDigit s = true ->
  parseInt s = match parseDigits 10 s None with
               | Some n => Num (Z.of_N n)
               | None => NaN
               end.
Proof.
  destruct s as [|c s]; [congruence|]. intros _ H.
  simpl in H. apply andb_true_iff in H as [Hc Hs].
  unfold parseInt. cbn [trimStart].
  rewrite (isDigit_not_whiteSpace c Hc).
  rewrite (isDigit_neq c "-" Hc eq_refl), (isDigit_neq c "+" Hc eq_refl).
  assert (E : (let '(radix, s3) :=
                 match String c s with
                 | String c0 (String c1 r) =>
                     if (c0 =? "0")%char && ((c1 =? "x")%char || (c1 =? "X")%char)
                     then (16%N, r) else (10%N, String c s)
                 | _ => (10%N, String c s)
                 end in (radix, s3)) = (10%N, String c s)).
  { destruct s as [|c1 r]; [reflexivity|].
    simpl in Hs. apply andb_true_iff in Hs as [Hc1 _].
    rewrite (isDigit_neq c1 "x" Hc1 eq_refl), (isDigit_neq c1 "X" Hc1 eq_refl).
    now rewrite andb_false_r. }
  destruct s as [|c1 r].
  - destruct (parseDigits 10 (String c "") None); [|reflexivity].
    f_equal. lia.
  - simpl in Hs. apply andb_true_iff in Hs as [Hc1 _].
    rewrite (isDigit_neq c1 "x" Hc1 eq_refl), (isDigit_neq c1 "X" Hc1 eq_refl).
    rewrite andb_false_r.
    destruct (parseDigits 10 (String c (String c1 r)) None); [|reflexivity].
    f_equal. lia.
Qed.

Lemma padStart_not_empty k c s : s <> "" -> padStart k c s <> "".
Proof.
  unfold padStart. intros Hs E.
  apply (f_equal String.length) in E. rewrite length_append in E.
  destruct s; [congruence | simpl in E; lia].
Qed.

(** [parseInt] reads a zero-padded non-negative integer back. *)
Lemma parseInt_padStart k z :
  0 <= z -> parseInt (padStart k "0" (toString z)) = Num z.
Proof.
  intros Hz. rewrite toString_nonneg by assumption.
  rewrite parseInt_digits.
  - unfold padStart.
    destruct (parseDigits_zeros
                (k - String.length (decimal (Z.to_N z)))
                (decimal (Z.to_N z)) None) as (acc & Hacc & ->);
      [now left|].
    rewrite parseDigits_decimal by assumption. f_equal. lia.
  - apply padStart_not_empty, decimal_not_empty.
  - unfold padStart. rewrite allChars_append, allDigits_decimal.
    now rewrite allChars_repeatChar.
Qed.

Lemma parseInt_toString z : 0 <= z -> parseInt (toString z) = Num z.
Proof.
  intros Hz. now rewrite <- (parseInt_padStart 0 z Hz).
Qed.

Lemma noDot_toString z : noDot (toString z) = true.
Proof.
  unfold noDot. destruct z as [|p|p]; [reflexivity| |].
  - apply (allChars_impl isDigit); [apply isDigit_noDot|].
    apply allDigits_decimal.
  - cbn [toString allChars]. simpl negb.
    apply (allChars_impl isDigit); [apply isDigit_noDot|].
    apply allDigits_decimal.
Qed.

Lemma noDot_padStart k z : noDot (padStart k "0" (toString z)) = true.
Proof.
  unfold noDot, padStart. rewrite allChars_append.
  rewrite allChars_repeatChar by reflexivity. apply noDot_toString.
Qed.

Lemma padStart_toString_not_empty k z : padStart k "0" (toString z) <> "".
Proof.
  apply padStart_not_empty. destruct z; [discriminate| |discriminate].
  apply decimal_not_empty.
Qed.

End NumberFacts.

(** ** The version identifier *)

Section VersionIdentifier.

Import JsString JsNumber.

Lemma split_formatVersion major minor update build :
  split "." (formatVersion major minor update (Some build))
  = [toString major; padStart 2 "0" (toString minor);
     padStart 3 "0" (toString update); padStart 3 "0" (toString build)].
Proof.
  unfold formatVersion.
  repeat match goal with
         | |- context [ "." ++ ?x ] => change ("." ++ x) with (String "." x)
         end.
  rewrite split_append by apply noDot_toString.
  rewrite split_append by apply noDot_padStart.
  rewrite split_append by apply noDot_padStart.
  rewrite split_single by apply noDot_padStart.
  reflexivity.
Qed.


Lemma hasFourParts_formatVersion major minor update build :
  hasFourParts (formatVersion major minor update (Some build)) = true.
Proof. unfold hasFourParts. now rewrite split_formatVersion. Qed.

Lemma orElse_some s fallback : s <> "" -> orElse (Some s) fallback = s.
Proof. destruct s; [congruence | reflexivity]. Qed.

Lemma toString_not_empty z : toString z <> "".
Proof. apply (padStart_toString_not_empty 0 z). Qed.




Lemma nth_error_firstn_lt {A} (l : list A) n i :
  (i < n)%nat -> nth_error (firstn n l) i = nth_error l i.
Proof.
  revert n i. induction l as [|a l IH]; intros n i Hi.
  - rewrite firstn_nil. reflexivity.
  - destruct n as [|n]; [lia|]. destruct i as [|i]; [reflexivity|].
    simpl. apply IH. lia.
Qed.

Lemma Forall_firstn_of {A} (P : A -> Prop) n (l : list A) :
  Forall P l -> Forall P (firstn n l).
Proof.
  intros H. revert n. induction H as [|a l Ha Hl IH]; intros [|n]; simpl;
    constructor; auto.
Qed.

Lemma parseVersion_firstn version version' :
  firstn 4 (split "." version) = firstn 4 (split "." version') ->
  parseVersion version = parseVersion version'.
Proof.
  intros E. unfold parseVersion.
  rewrite <- !(nth_error_firstn_lt (split "." version) 4) by lia.
  rewrite <- !(nth_error_firstn_lt (split "." version') 4) by lia.
  now rewrite E.
Qed.

(** C10. [parseVersion] reads the first four dot-separated segments only:
    the result is that of the version made of these segments, so segments
    beyond the fourth are ignored. *)
Theorem parseVersion_first_four (version : string) :
  parseVersion version
  = parseVersion (join "." (firstn 4 (split "." version)))
  /\ parseVersion "1.2.3.4.5"
     = ParsedVersion.mk (Num 1) (Num 2) (Num 3) (Num 4).
Proof.
  split; [|reflexivity].
  apply parseVersion_firstn. rewrite split_join.
  - now rewrite firstn_firstn.
  - destruct (split "." version) eqn:E; [|discriminate].
    now apply split_not_nil in E.
  - apply Forall_firstn_of, split_segments_noSep.
Qed.

Lemma component_parseVersion version i :
  (i < 4)%nat ->
  component (parseVersion version) i
  = parseInt (orElse (nth_error (split "." version) i) "0").
Proof.
  intros Hi.
  destruct i as [|[|[|[|i]]]]; try reflexivity. lia.
Qed.

Lemma digitValue_not_digit c : isDigit c = false -> digitValue 10 c = None.
Proof.
  unfold isDigit, digitValue. intros ->.
  destruct ((97 <=? code c) && (code c <=? 122))%N eqn:E1.
  - apply andb_true_iff in E1 as [H1 H2]. apply N.leb_le in H1, H2.
    replace (code c - 87 <? 10)%N with false; [reflexivity|].
    symmetry. apply N.ltb_ge. lia.
  - destruct ((65 <=? code c) && (code c <=? 90))%N eqn:E2; [|reflexivity].
    apply andb_true_iff in E2 as [H1 H2]. apply N.leb_le in H1, H2.
    replace (code c - 55 <? 10)%N with false; [reflexivity|].
    symmetry. apply N.ltb_ge. lia.
Qed.

Lemma parseInt_nonNumeric segment :
  nonNumeric segment = true -> parseInt segment = NaN.
Proof.
  destruct segment as [|c r]; [discriminate|]. unfold nonNumeric.
  rewrite !andb_true_iff, !negb_true_iff. intros [[[Hws Hminus] Hplus] Hdigit].
  unfold parseInt. cbn [trimStart]. rewrite Hws, Hminus, Hplus.
  assert (H0 : (c =? "0")%char = false).
  { apply Ascii.eqb_neq. intros ->. discriminate. }
  destruct r as [|c1 r]; cbn [andb]; rewrite ?H0; cbn [andb parseDigits];
    now rewrite (digitValue_not_digit c Hdigit).
Qed.

(** C3, as the code has it.  [parseVersion] returns for every string; a
    component whose segment is missing or empty is 0; any other segment is
    read by [parseInt], so a non-numeric one gives NaN, not 0. *)
Theorem parseVersion_lenient (version : string) (i : nat) (Hi : (i < 4)%nat) :
  let part := nth_error (split "." version) i in
  let value := component (parseVersion version) i in
  (part = None -> value = Num 0)
  /\ (part = Some "" -> value = Num 0)
  /\ (forall segment, part = Some segment -> segment <> "" ->
        value = parseInt segment)
  /\ (forall segment, part = Some segment -> nonNumeric segment = true ->
        value = NaN)
  /\ parseVersion "a.b.c" = ParsedVersion.mk NaN NaN NaN (Num 0).
Proof.
  cbv zeta. rewrite (component_parseVersion version i Hi).
  repeat split.
  - now intros ->.
  - now intros ->.
  - intros segment -> Hne. now rewrite orElse_some.
  - intros segment -> Hnon. rewrite orElse_some.
    + now apply parseInt_nonNumeric.
    + intros ->. discriminate.
Qed.

Lemma parseVersion_lenient_witness :
  component (parseVersion "7.x") 1 = NaN
  /\ component (parseVersion "7.x") 2 = Num 0.
Proof.
  pose proof (parseVersion_lenient "7.x" 1 ltac:(lia)) as H1.
  pose proof (parseVersion_lenient "7.x" 2 ltac:(lia)) as H2.
  cbv zeta in H1, H2. split.
  - apply (proj1 (proj2 (proj2 (proj2 H1))) "x"); reflexivity.
  - apply (proj1 H2). reflexivity.
Defined.

(** The example of claim C3 fails: the non-numeric segments of "a.b.c" do
    not default to 0. *)
Lemma parseVersion_non_numeric_not_zero :
  parseVersion "a.b.c"
  <> ParsedVersion.mk (Num 0) (Num 0) (Num 0) (Num 0).
Proof. discriminate. Qed.

End VersionIdentifier.

(** ** The impact scorer *)

Section ImpactScorer.

Import JsString.

Lemma keyword_boost (p : string -> bool) (keywords : list string) (score : Z) :
  fold_left
    (fun score keyword => if p keyword then plusAssign score 10 else score)
    keywords (Points score)
  = Points (score + 10 * Z.of_nat (List.length (filter p keywords))).
Proof.
  revert score.
  induction keywords as [|k keywords IH]; intros score; cbn [fold_left filter].
  - cbn [List.length]. f_equal. lia.
  - destruct (p k); cbn [plusAssign List.length]; rewrite IH; f_equal; lia.
Qed.

Lemma keyword_boost_text (p : string -> bool) (keywords : list string) :
  fold_left
    (fun score keyword => if p keyword then plusAssign score 10 else score)
    keywords Text
  = Text.
Proof.
  induction keywords as [|k keywords IH]; cbn [fold_left]; [reflexivity|].
  destruct (p k); exact IH.
Qed.

Lemma typeScores_basePoints (type : string) :
  match JsObject.get type typeScores with
  | Some points => points = basePoints type /\ inherited type = false
  | None => basePoints type = 0
  end.
Proof.
  unfold basePoints, typeScores. cbn [JsObject.get].
  repeat match goal with
         | |- context [ (type =? ?k)%string ] =>
             destruct (String.eqb_spec type k) as [->|_]
         end; try (split; reflexivity); reflexivity.
Qed.


(** The score in closed form: NaN for a type that names a member of
    [Object.prototype], the capped sum for every other type. *)
Lemma score_formula (release : Release.t) :
  calculateImpactScore release
  = if inherited (Release.type release) then NaN
    else Num (Z.min (basePoints (Release.type release)
                     + 5 * Z.of_nat (List.length (Release.changes release))
                     + 3 * Z.of_nat (List.length (technicalEntries release))
                     + 10 * Z.of_nat (List.length
                         (filter (includes (allText release))
                            highImpactKeywords)))
                200).
Proof.
  unfold calculateImpactScore.
  pose proof (typeScores_basePoints (Release.type release)) as Hbase.
  destruct (JsObject.get (Release.type release) typeScores) as [points|].
  - destruct Hbase as [-> ->]. unfold technicalEntries.
    destruct (Release.technical release); cbn [plusAssign];
      rewrite keyword_boost; do 2 f_equal; cbn [List.length]; lia.
  - destruct (inherited (Release.type release)).
    + destruct (Release.technical release); cbn [plusAssign];
        now rewrite keyword_boost_text.
    + rewrite Hbase. unfold technicalEntries.
      destruct (Release.technical release); cbn [plusAssign];
        rewrite keyword_boost; do 2 f_equal; cbn [List.length]; lia.
Qed.




(** C9. The level of a score is decided by closed lower bounds: 150 and
    above Critical, 100..149 High, 60..99 Medium, 30..59 Low, below 30
    Minimal; a score on a boundary belongs to the higher tier. *)
Theorem getImpactLevel_tiers (score : Z) :
  let level := ImpactLevel.level (getImpactLevel score) in
  ((150 <= score /\ level = "Critical")
   \/ (100 <= score < 150 /\ level = "High")
   \/ (60 <= score < 100 /\ level = "Medium")
   \/ (30 <= score < 60 /\ level = "Low")
   \/ (score < 30 /\ level = "Minimal"))
  /\ ImpactLevel.level (getImpactLevel 150) = "Critical"
  /\ ImpactLevel.level (getImpactLevel 100) = "High"
  /\ ImpactLevel.level (getImpactLevel 60) = "Medium"
  /\ ImpactLevel.level (getImpactLevel 30) = "Low"
  /\ ImpactLevel.level (getImpactLevel 29) = "Minimal".
Proof.
  cbv zeta. split; [|repeat split].
  unfold getImpactLevel.
  destruct (Z.leb_spec 150 score); [left; now split|].
  destruct (Z.leb_spec 100 score); [right; left; split; [lia|reflexivity]|].
  destruct (Z.leb_spec 60 score);
    [right; right; left; split; [lia|reflexivity]|].
  destruct (Z.leb_spec 30 score);
    [right; right; right; left; split; [lia|reflexivity]|].
  right; right; right; right. now split.
Qed.

End ImpactScorer.

(** ** Dictionaries *)

Section ObjectFacts.

Import JsObject.
Context {V : Type}.
Implicit Types (o : JsObject V) (k : string) (v : V).

Lemma has_false_get k o : has k o = false <-> get k o = None.
Proof.
  unfold has. induction o as [|[k0 v0] o IH]; simpl; [tauto|].
  destruct (k =? k0)%string; simpl; [split; discriminate | exact IH].
Qed.

Lemma has_true_In k o : has k o = true <-> In k (keys o).
Proof.
  unfold has. rewrite existsb_exists. split.
  - intros (x & Hx & E). apply String.eqb_eq in E. now subst.
  - intros H. exists k. split; [assumption | apply String.eqb_refl].
Qed.

Lemma get_Some_In k v o : get k o = Some v -> In (k, v) o.
Proof.
  induction o as [|[k0 v0] o IH]; simpl; [discriminate|].
  destruct (String.eqb_spec k k0) as [-> | Hne].
  - intros [= ->]. now left.
  - intros H. right. now apply IH.
Qed.

Lemma In_keys_get k o : In k (keys o) -> exists v, get k o = Some v.
Proof.
  intros H. apply has_true_In in H.
  destruct (get k o) as [v|] eqn:E; [now exists v|].
  apply has_false_get in E. congruence.
Qed.

Lemma keys_replace k v o : keys (replace k v o) = keys o.
Proof.
  induction o as [|[k0 v0] o IH]; simpl; [reflexivity|].
  destruct (String.eqb_spec k k0) as [-> | Hne]; simpl; congruence.
Qed.

Lemma get_replace_same k v o :
  has k o = true -> get k (replace k v o) = Some v.
Proof.
  unfold has. induction o as [|[k0 v0] o IH]; simpl; [discriminate|].
  destruct (k =? k0)%string eqn:E; simpl.
  - now rewrite String.eqb_refl.
  - rewrite E. exact IH.
Qed.

Lemma get_replace_other k k' v o :
  k' <> k -> get k' (replace k v o) = get k' o.
Proof.
  intros Hne. induction o as [|[k0 v0] o IH]; simpl; [reflexivity|].
  destruct (String.eqb_spec k k0) as [<- | Hk]; simpl.
  - apply String.eqb_neq in Hne. now rewrite Hne.
  - now rewrite IH.
Qed.

Lemma get_insertIndex_same i k v o :
  get k o = None -> get k (insertIndex i k v o) = Some v.
Proof.
  induction o as [|[k0 v0] o IH]; simpl.
  - now rewrite String.eqb_refl.
  - destruct (k =? k0)%string eqn:E; [discriminate|]. intros H.
    destruct (arrayIndex k0) as [j|]; [destruct (j <? i)%N|]; simpl;
      rewrite ?E, ?String.eqb_refl; auto.
Qed.

Lemma get_insertIndex_other i k k' v o :
  k' <> k -> get k' (insertIndex i k v o) = get k' o.
Proof.
  intros Hne. apply String.eqb_neq in Hne.
  induction o as [|[k0 v0] o IH]; simpl.
  - now rewrite Hne.
  - destruct (arrayIndex k0) as [j|]; [destruct (j <? i)%N|]; simpl;
      rewrite ?Hne, ?IH; reflexivity.
Qed.

Lemma get_append k' k v o :
  get k' (o ++ [(k, v)])%list
  = match get k' o with
    | Some x => Some x
    | None => if (k' =? k)%string then Some v else None
    end.
Proof.
  induction o as [|[k0 v0] o IH]; simpl; [reflexivity|].
  destruct (k' =? k0)%string; [reflexivity | exact IH].
Qed.

(** Reading a property after writing it. *)
Lemma get_set_same k v o : get k (set k v o) = Some v.
Proof.
  unfold set. destruct (has k o) eqn:E.
  - now apply get_replace_same.
  - apply has_false_get in E. destruct (arrayIndex k).
    + now apply get_insertIndex_same.
    + now rewrite get_append, E, String.eqb_refl.
Qed.

(** Writing a property leaves the others as they are. *)
Lemma get_set_other k k' v o : k' <> k -> get k' (set k v o) = get k' o.
Proof.
  intros Hne. unfold set. destruct (has k o).
  - now apply get_replace_other.
  - destruct (arrayIndex k).
    + now apply get_insertIndex_other.
    + rewrite get_append. apply String.eqb_neq in Hne. rewrite Hne.
      now destruct (get k' o).
Qed.



(** A property of all entries survives [set] and [delete]. *)
Lemma forallb_replace (P : string * V -> bool) k v o :
  P (k, v) = true -> forallb P o = true -> forallb P (replace k v o) = true.
Proof.
  intros Hkv. induction o as [|[k0 v0] o IH]; simpl; [reflexivity|].
  intros H. apply andb_true_iff in H as [H0 Ho].
  destruct (k =? k0)%string; simpl.
  - now rewrite Hkv, Ho.
  - now rewrite H0, IH.
Qed.

Lemma forallb_insertIndex (P : string * V -> bool) i k v o :
  P (k, v) = true -> forallb P o = true ->
  forallb P (insertIndex i k v o) = true.
Proof.
  intros Hkv. induction o as [|[k0 v0] o IH]; simpl.
  - now rewrite Hkv.
  - intros H. apply andb_true_iff in H as [H0 Ho].
    destruct (arrayIndex k0) as [j|]; [destruct (j <? i)%N|]; simpl;
      rewrite ?Hkv, ?H0, ?Ho, ?IH; auto.
Qed.

Lemma forallb_set (P : string * V -> bool) k v o :
  P (k, v) = true -> forallb P o = true -> forallb P (set k v o) = true.
Proof.
  intros Hkv Ho. unfold set. destruct (has k o).
  - now apply forallb_replace.
  - destruct (arrayIndex k).
    + now apply forallb_insertIndex.
    + rewrite forallb_app, Ho. simpl. now rewrite Hkv.
Qed.

Lemma forallb_filter (P f : string * V -> bool) o :
  forallb P o = true -> forallb P (filter f o) = true.
Proof.
  induction o as [|e o IH]; simpl; [reflexivity|].
  intros H. apply andb_true_iff in H as [He Ho].
  destruct (f e); simpl; rewrite ?He; auto.
Qed.

Lemma forallb_get (P : string * V -> bool) k v o :
  forallb P o = true -> get k o = Some v -> P (k, v) = true.
Proof.
  intros H Hget. apply get_Some_In in Hget.
  rewrite forallb_forall in H. now apply H.
Qed.

End ObjectFacts.

(** ** Enumeration order *)

Section EnumerationOrder.

Import JsObject.
Context {V : Type}.
Implicit Types (o : JsObject V) (k : string) (v : V).

Lemma arrayIndex_toString k i :
  arrayIndex k = Some i -> JsNumber.toString (Z.of_N i) = k.
Proof.
  unfold arrayIndex.
  destruct (JsNumber.parseDigits 10 k None) as [n|]; [|discriminate].
  destruct (String.eqb_spec (JsNumber.toString (Z.of_N n)) k) as [E|];
    [|discriminate].
  destruct (n <? 4294967295)%N; [|discriminate].
  now intros [= <-].
Qed.

Lemma arrayIndex_inj k k' i :
  arrayIndex k = Some i -> arrayIndex k' = Some i -> k = k'.
Proof.
  intros H H'. apply arrayIndex_toString in H, H'. congruence.
Qed.

Lemma precedes_nonIndex k k' : arrayIndex k' = None -> precedes k k' = true.
Proof. unfold precedes. intros ->. now destruct (arrayIndex k). Qed.

Lemma precedes_index k k' i :
  arrayIndex k' = Some i -> precedes k k' = true ->
  exists j, arrayIndex k = Some j /\ (j <? i)%N = true.
Proof.
  unfold precedes. intros ->. destruct (arrayIndex k) as [j|];
    [|discriminate]. intros H. now exists j.
Qed.

Lemma precedes_trans k1 k2 k3 :
  precedes k1 k2 = true -> precedes k2 k3 = true -> precedes k1 k3 = true.
Proof.
  unfold precedes.
  destruct (arrayIndex k1), (arrayIndex k2), (arrayIndex k3);
    try discriminate; try reflexivity.
  rewrite !N.ltb_lt. lia.
Qed.

Lemma wf_replace k v o : wf (replace k v o) = wf o.
Proof.
  induction o as [|[k0 v0] o IH]; simpl; [reflexivity|].
  destruct (String.eqb_spec k k0) as [-> | Hne]; simpl; [reflexivity|].
  rewrite IH. f_equal.
  clear IH. induction o as [|[k1 v1] o IH]; simpl; [reflexivity|].
  destruct (String.eqb_spec k k1) as [-> | Hk]; simpl; [reflexivity|].
  now rewrite IH.
Qed.

Lemma wf_filter (f : string * V -> bool) o :
  wf o = true -> wf (filter f o) = true.
Proof.
  induction o as [|[k0 v0] o IH]; simpl; [reflexivity|].
  intros H. apply andb_true_iff in H as [H0 Ho].
  destruct (f (k0, v0)); simpl; [|auto].
  now rewrite forallb_filter, IH.
Qed.

Lemma has_false_forallb k o :
  has k o = false ->
  forallb (fun e => negb (fst e =? k)%string) o = true.
Proof.
  unfold has. induction o as [|[k0 v0] o IH]; simpl; [reflexivity|].
  intros H. apply orb_false_iff in H as [H0 Ho].
  rewrite String.eqb_sym, H0. simpl. auto.
Qed.

Lemma wf_append k v o :
  wf o = true -> has k o = false -> arrayIndex k = None ->
  wf (o ++ [(k, v)])%list = true.
Proof.
  intros Hwf Hhas Hidx.
  induction o as [|[k0 v0] o IH]; simpl; [reflexivity|].
  simpl in Hwf. apply andb_true_iff in Hwf as [H0 Ho].
  unfold has in Hhas. simpl in Hhas.
  apply orb_false_iff in Hhas as [Hk Hhas].
  rewrite forallb_app, H0, IH by assumption. simpl.
  rewrite String.eqb_sym, Hk, precedes_nonIndex by assumption. reflexivity.
Qed.

Lemma wf_insertIndex i k v o :
  wf o = true -> has k o = false -> arrayIndex k = Some i ->
  wf (insertIndex i k v o) = true.
Proof.
  intros Hwf Hhas Hidx.
  induction o as [|[k0 v0] o IH]; simpl; [reflexivity|].
  simpl in Hwf. apply andb_true_iff in Hwf as [H0 Ho].
  unfold has in Hhas. simpl in Hhas.
  apply orb_false_iff in Hhas as [Hk Hhas].
  assert (Hfresh : forallb (fun e => negb (k =? fst e)%string && precedes k (fst e))
                     ((k0, v0) :: o) = true
                  \/ exists j, arrayIndex k0 = Some j /\ (j <? i)%N = true).
  { destruct (arrayIndex k0) as [j|] eqn:E0.
    - destruct (j <? i)%N eqn:Hji; [right; now exists j|]. left.
      assert (Hk0 : precedes k k0 = true).
      { unfold precedes. rewrite Hidx, E0. apply N.ltb_lt.
        apply N.ltb_ge in Hji.
        assert (j <> i).
        { intros ->. apply String.eqb_neq in Hk. apply Hk.
          eapply arrayIndex_inj; eassumption. }
        lia. }
      simpl. rewrite Hk, Hk0. simpl.
      rewrite forallb_forall in H0. apply forallb_forall. intros e He.
      specialize (H0 e He). apply andb_true_iff in H0 as [_ H0].
      rewrite (precedes_trans _ _ _ Hk0 H0), andb_true_r.
      apply has_false_forallb in Hhas. rewrite forallb_forall in Hhas.
      rewrite String.eqb_sym. now apply Hhas.
    - left. simpl. rewrite Hk. simpl.
      rewrite (precedes_nonIndex k k0 E0). simpl.
      rewrite forallb_forall in H0. apply forallb_forall. intros e He.
      specialize (H0 e He). apply andb_true_iff in H0 as [_ H0].
      apply has_false_forallb in Hhas. rewrite forallb_forall in Hhas.
      rewrite String.eqb_sym, (Hhas e He). simpl.
      unfold precedes in *. rewrite E0 in H0. rewrite Hidx.
      destruct (arrayIndex (fst e)); [discriminate | reflexivity]. }
  destruct Hfresh as [Hfresh | (j & Ej & Hji)].
  - assert (E : insertIndex i k v ((k0, v0) :: o) = (k, v) :: (k0, v0) :: o
               \/ exists j, arrayIndex k0 = Some j /\ (j <? i)%N = true).
    { simpl. destruct (arrayIndex k0) as [j|];
        [destruct (j <? i)%N eqn:Hji|]; auto. right. now exists j. }
    destruct E as [E | (j & Ej & Hji)].
    + simpl in E. rewrite E. cbn [wf]. rewrite Hfresh. simpl.
      now rewrite H0, Ho.
    + rewrite Ej, Hji. simpl. rewrite IH by assumption.
      rewrite forallb_insertIndex; try assumption; try reflexivity.
      simpl. rewrite String.eqb_sym, Hk. simpl.
      unfold precedes. now rewrite Ej, Hidx.
  - rewrite Ej, Hji. simpl. rewrite IH by assumption.
    rewrite forallb_insertIndex; try assumption; try reflexivity.
    simpl. rewrite String.eqb_sym, Hk. simpl.
    unfold precedes. now rewrite Ej, Hidx.
Qed.

(** Writing and deleting properties keeps a dictionary an enumeration. *)
Lemma wf_set k v o : wf o = true -> wf (set k v o) = true.
Proof.
  intros Hwf. unfold set. destruct (has k o) eqn:Hhas.
  - now rewrite wf_replace.
  - destruct (arrayIndex k) eqn:Hidx.
    + now apply wf_insertIndex.
    + now apply wf_append.
Qed.

Lemma wf_delete k o : wf o = true -> wf (delete k o) = true.
Proof. apply wf_filter. Qed.

Lemma wf_before (l1 l2 : JsObject V) k v :
  wf (l1 ++ (k, v) :: l2)%list = true ->
  forallb (fun e => negb (fst e =? k)%string && precedes (fst e) k) l1 = true.
Proof.
  induction l1 as [|[k0 v0] l1 IH]; simpl; [reflexivity|].
  intros H. apply andb_true_iff in H as [H0 Hl].
  rewrite forallb_app in H0. apply andb_true_iff in H0 as [_ H0].
  simpl in H0. apply andb_true_iff in H0 as [H0 _].
  rewrite H0. now apply IH.
Qed.

Lemma set_at_end (l : JsObject V) k v :
  forallb (fun e => negb (fst e =? k)%string && precedes (fst e) k) l = true ->
  set k v l = (l ++ [(k, v)])%list.
Proof.
  intros H. unfold set.
  assert (Hhas : has k l = false).
  { unfold has. clear -H. induction l as [|[k0 v0] l IH]; simpl in *;
      [reflexivity|].
    apply andb_true_iff in H as [H0 Hl].
    apply andb_true_iff in H0 as [H0 _]. apply negb_true_iff in H0.
    rewrite String.eqb_sym, H0. simpl. auto. }
  rewrite Hhas. destruct (arrayIndex k) as [i|] eqn:Hidx; [|reflexivity].
  clear Hhas. induction l as [|[k0 v0] l IH]; simpl in *; [reflexivity|].
  apply andb_true_iff in H as [H0 Hl].
  apply andb_true_iff in H0 as [_ H0].
  destruct (precedes_index _ _ _ Hidx H0) as (j & Ej & Hji).
  rewrite Ej, Hji. f_equal. auto.
Qed.

(** Building an object again from its own entries, in their order, gives
    the same object. *)
Lemma rebuild_same (f : string -> string) (g : V -> V) (l2 l1 : JsObject V) :
  wf (l1 ++ l2)%list = true ->
  (forall e, In e l2 -> f (fst e) = fst e /\ g (snd e) = snd e) ->
  fold_left (fun acc e => set (f (fst e)) (g (snd e)) acc) l2 l1
  = (l1 ++ l2)%list.
Proof.
  revert l1. induction l2 as [|[k v] l2 IH]; intros l1 Hwf Hfix; simpl.
  - now rewrite app_nil_r.
  - destruct (Hfix (k, v) (or_introl eq_refl)) as [Hk Hv]. simpl in Hk, Hv.
    rewrite Hk, Hv. rewrite (set_at_end l1 k v) by (eapply wf_before; eauto).
    rewrite IH.
    + now rewrite <- app_assoc.
    + now rewrite <- app_assoc.
    + intros e He. apply Hfix. now right.
Qed.

Lemma wf_fold_set (f : string -> string) (g : V -> V) (l acc : JsObject V) :
  wf acc = true ->
  wf (fold_left (fun acc e => set (f (fst e)) (g (snd e)) acc) l acc) = true.
Proof.
  revert acc. induction l as [|e l IH]; intros acc Hacc; simpl; [assumption|].
  apply IH. now apply wf_set.
Qed.

Lemma forallb_fold_set (P : string * V -> bool)
    (f : string -> string) (g : V -> V) (l acc : JsObject V) :
  (forall e, In e l -> P (f (fst e), g (snd e)) = true) ->
  forallb P acc = true ->
  forallb P (fold_left (fun acc e => set (f (fst e)) (g (snd e)) acc) l acc)
  = true.
Proof.
  revert acc.
  induction l as [|e l IH]; intros acc HP Hacc; simpl; [assumption|].
  apply IH.
  - intros e' He'. apply HP. now right.
  - apply forallb_set; [|assumption]. apply HP. now left.
Qed.

End EnumerationOrder.

(** ** Migration *)

Section Migration.

Import JsString JsObject VersionManager.

Lemma hasThreeParts_withBuild key : hasThreeParts (withBuild key) = false.
Proof.
  unfold withBuild. destruct (hasThreeParts key) eqn:E; [|assumption].
  unfold hasThreeParts in *. apply Nat.eqb_eq in E. apply Nat.eqb_neq.
  pose proof (split_length_append "." key ".000") as H.
  simpl (List.length (split "." ".000")) in H. lia.
Qed.

Lemma withBuild_same key : hasThreeParts key = false -> withBuild key = key.
Proof. unfold withBuild. now intros ->. Qed.

Lemma hasFourParts_not_three s : hasFourParts s = true -> hasThreeParts s = false.
Proof.
  unfold hasFourParts, hasThreeParts. rewrite Nat.eqb_eq, Nat.eqb_neq. lia.
Qed.

Lemma migratedRelease_same release :
  hasThreeParts (Release.version release) = false ->
  migratedRelease release = release.
Proof.
  intros H. unfold migratedRelease. rewrite withBuild_same by assumption.
  now destruct release.
Qed.

(** Migration leaves every document in the migrated state. *)
Lemma migrated_migrateVersionFormat (versionData : VersionData.t) :
  migrated (migrateVersionFormat versionData) = true.
Proof.
  unfold migrated, migrateVersionFormat. cbn [VersionInfo.version
    VersionInfo.changelog VersionInfo.releases].
  repeat (apply andb_true_iff; split).
  - destruct (String.eqb_spec (VersionData.version versionData) "")
      as [E|_]; simpl.
    + now rewrite E.
    + destruct (hasThreeParts (VersionData.version versionData)) eqn:E3.
      * apply negb_true_iff.
        pose proof (hasThreeParts_withBuild (VersionData.version versionData))
          as H. unfold withBuild in H. now rewrite E3 in H.
      * now rewrite E3.
  - now apply (wf_fold_set withBuild (fun value => value)).
  - unfold noLegacyKey.
    apply (forallb_fold_set _ withBuild (fun value => value));
      [|reflexivity].
    intros e _. simpl. now rewrite hasThreeParts_withBuild.
  - destruct (VersionData.releases versionData) as [releases|];
      [|reflexivity].
    apply andb_true_iff; split.
    + now apply (wf_fold_set withBuild migratedRelease).
    + unfold noLegacyRelease.
      apply (forallb_fold_set _ withBuild migratedRelease); [|reflexivity].
      intros e _. simpl. now rewrite !hasThreeParts_withBuild.
Qed.

(** On a document in the migrated state migration changes nothing. *)
Lemma migrateVersionFormat_same (v : VersionInfo.t) :
  migrated v = true -> migrateVersionFormat (asAny v) = v.
Proof.
  unfold migrated. rewrite !andb_true_iff, negb_true_iff.
  intros [[[Hversion Hwf] Hkeys] Hreleases].
  destruct v as [version major minor update build changelog releases].
  unfold migrateVersionFormat, asAny.
  cbn [VersionData.version VersionData.major VersionData.minor
       VersionData.update VersionData.build VersionData.changelog
       VersionData.releases VersionInfo.version VersionInfo.major
       VersionInfo.minor VersionInfo.update VersionInfo.build
       VersionInfo.changelog VersionInfo.releases] in *.
  rewrite Hversion, andb_false_r. f_equal.
  - apply (rebuild_same withBuild (fun value => value) changelog []);
      [assumption|].
    intros e He. split; [|reflexivity]. apply withBuild_same.
    unfold noLegacyKey in Hkeys. rewrite forallb_forall in Hkeys.
    now apply negb_true_iff, Hkeys.
  - destruct releases as [releases|]; [|reflexivity]. f_equal.
    apply andb_true_iff in Hreleases as [Hwf' Hlegacy].
    apply (rebuild_same withBuild migratedRelease releases []);
      [assumption|].
    intros e He. unfold noLegacyRelease in Hlegacy.
    rewrite forallb_forall in Hlegacy. specialize (Hlegacy e He).
    apply andb_true_iff in Hlegacy as [Hk Hv].
    apply negb_true_iff in Hk, Hv. split.
    + now apply withBuild_same.
    + now apply migratedRelease_same.
Qed.

Lemma forallb_impl {A} (P Q : A -> bool) (l : list A) :
  (forall a, P a = true -> Q a = true) ->
  forallb P l = true -> forallb Q l = true.
Proof.
  intros HPQ. rewrite !forallb_forall. auto.
Qed.

(** C7. Migrating twice is migrating once, and migrating an
    already-migrated document gives the document back. *)
Theorem migrateVersionFormat_idempotent (doc : VersionData.t) :
  migrateVersionFormat (asAny (migrateVersionFormat doc))
  = migrateVersionFormat doc
  /\ (alreadyMigrated doc = true -> asAny (migrateVersionFormat doc) = doc).
Proof.
  split.
  - apply migrateVersionFormat_same, migrated_migrateVersionFormat.
  - unfold alreadyMigrated. rewrite !andb_true_iff.
    intros [[[[Hbuild Hversion] Hwf] Hkeys] Hreleases].
    destruct doc as [version major minor update [build|] changelog releases];
      [|discriminate].
    cbn [VersionData.version VersionData.changelog VersionData.releases]
      in *.
    pose (v := VersionInfo.mk version major minor update build changelog
                 releases).
    change (asAny (migrateVersionFormat (asAny v)) = asAny v).
    f_equal. apply migrateVersionFormat_same. unfold migrated, v.
    cbn [VersionInfo.version VersionInfo.changelog VersionInfo.releases].
    rewrite (hasFourParts_not_three _ Hversion), Hwf. simpl.
    apply andb_true_iff; split.
    + unfold noLegacyKey. revert Hkeys. apply forallb_impl.
      intros e He. now rewrite (hasFourParts_not_three _ He).
    + destruct releases as [releases|]; [|reflexivity].
      apply andb_true_iff in Hreleases as [Hwf' H4].
      rewrite Hwf'. simpl. unfold noLegacyRelease. revert H4.
      apply forallb_impl. intros e He.
      apply andb_true_iff in He as [Hk Hv].
      now rewrite (hasFourParts_not_three _ Hk),
        (hasFourParts_not_three _ Hv).
Qed.

Lemma migrateVersionFormat_idempotent_witness :
  let doc :=
    VersionData.mk "1.02.003.000" 1 2 3 (Some 0)
      [("1.02.003.000", "Release notes")]
      (Some [("1.02.003.000",
              Release.mk "1.02.003.000" "2025-08-17T01:04:00.000Z"
                "Fix login" "fix" "S1" ["A"] None (Some (Num 25)))]) in
  alreadyMigrated doc = true /\ asAny (migrateVersionFormat doc) = doc.
Proof.
  cbv zeta. split; [reflexivity|].
  apply (proj2 (migrateVersionFormat_idempotent _)). reflexivity.
Defined.

(** The example of the specification: a legacy document gets 4-part
    version strings throughout. *)
Lemma migrateVersionFormat_legacy_example :
  let release version :=
    Release.mk version "2025-08-17T01:04:00.000Z" "Fix login" "fix" "S1"
      ["A"] None (Some (Num 25)) in
  migrateVersionFormat
    (VersionData.mk "1.02.003" 1 2 3 None [("1.02.003", "Release notes")]
       (Some [("1.02.003", release "1.02.003")]))
  = VersionInfo.mk "1.02.003.000" 1 2 3 0
      [("1.02.003.000", "Release notes")]
      (Some [("1.02.003.000", release "1.02.003.000")]).
Proof. reflexivity. Qed.

End Migration.

(** ** Sorting *)

Section SortFacts.

Import JsArray.
Context {A : Type} (eq_dec : forall a b : A, {a = b} + {a <> b}).
Variable comparefn : A -> A -> number.

Lemma In_insertSorted x y l :
  In y (insertSorted comparefn x l) <-> y = x \/ In y l.
Proof.
  induction l as [|a l IH]; simpl.
  - intuition.
  - destruct (isPositive (comparefn x a)); simpl; rewrite ?IH; intuition.
Qed.

Lemma In_sort y l : In y (sort comparefn l) <-> In y l.
Proof.
  induction l as [|a l IH]; simpl; [tauto|].
  rewrite In_insertSorted, IH. intuition.
Qed.

Lemma sort_nil l : sort comparefn l = [] -> l = [].
Proof.
  destruct l as [|a l]; [reflexivity|]. intros E.
  assert (H : In a (sort comparefn (a :: l))) by (apply In_sort; now left).
  rewrite E in H. destruct H.
Qed.

(** An element the comparator places before every other one comes first. *)
Lemma hd_sort_first x l :
  In x l ->
  (forall y, In y l -> y <> x ->
     isPositive (comparefn x y) = false /\ isPositive (comparefn y x) = true) ->
  hd_error (sort comparefn l) = Some x.
Proof.
  induction l as [|a l IH]; [intros []|]. intros Hin Hfirst.
  change (sort comparefn (a :: l))
    with (insertSorted comparefn a (sort comparefn l)).
  destruct (eq_dec a x) as [-> | Hax].
  - destruct (sort comparefn l) as [|h t] eqn:E; [reflexivity|].
    cbn [insertSorted]. destruct (eq_dec h x) as [-> | Hhx].
    + now destruct (isPositive (comparefn x x)).
    + assert (Hh : In h (x :: l)).
      { right. apply In_sort. rewrite E. now left. }
      destruct (Hfirst h Hh Hhx) as [-> _]. reflexivity.
  - destruct Hin as [E | Hin]; [congruence|].
    assert (Hhd : hd_error (sort comparefn l) = Some x).
    { apply IH; [assumption|]. intros y Hy. apply Hfirst. now right. }
    destruct (sort comparefn l) as [|h t]; [discriminate|].
    injection Hhd as ->. cbn [insertSorted].
    destruct (Hfirst a (or_introl eq_refl) Hax) as [_ ->]. reflexivity.
Qed.

(** With a comparator that is a difference of times, no element has a
    larger time than the first one. *)
Lemma hd_sort_max (time : A -> Z) l h :
  (forall a b, In a l -> In b l -> comparefn a b = Num (time b - time a)) ->
  hd_error (sort comparefn l) = Some h ->
  forall y, In y l -> time y <= time h.
Proof.
  revert h. induction l as [|a l IH]; intros h Hcmp Hhd y Hy; [destruct Hy|].
  change (sort comparefn (a :: l))
    with (insertSorted comparefn a (sort comparefn l)) in Hhd.
  destruct (sort comparefn l) as [|h' t] eqn:E.
  - apply sort_nil in E. subst l. injection Hhd as <-.
    destruct Hy as [-> | []]. lia.
  - assert (Hh' : In h' l) by (apply In_sort; rewrite E; now left).
    assert (IH' : forall y, In y l -> time y <= time h').
    { apply IH; [|reflexivity]. intros; apply Hcmp; now right. }
    cbn [insertSorted] in Hhd.
    rewrite (Hcmp a h' (or_introl eq_refl) (or_intror Hh')) in Hhd.
    cbn [isPositive] in Hhd.
    destruct (Z.ltb_spec 0 (time h' - time a)); injection Hhd as <-.
    + destruct Hy as [-> | Hy]; [lia | auto].
    + destruct Hy as [-> | Hy]; [lia|]. specialize (IH' y Hy). lia.
Qed.

End SortFacts.

(** ** The latest release *)

Section LatestRelease.

Import JsObject VersionManager.
Variable getTime : string -> number.

Lemma latestReleaseKey_In releases key :
  latestReleaseKey getTime releases = Some key -> In key (keys releases).
Proof.
  unfold latestReleaseKey. intros H.
  destruct (JsArray.sort _ (keys releases)) as [|h t] eqn:E; [discriminate|].
  injection H as ->.
  eapply In_sort. rewrite E. now left.
Qed.

(** A release dated strictly later than all others is the one picked. *)
Lemma latestReleaseKey_isLatest releases key :
  isLatest getTime releases key ->
  latestReleaseKey getTime releases = Some key.
Proof.
  intros [Hin Hlater]. unfold latestReleaseKey.
  apply (hd_sort_first string_dec); [assumption|].
  intros y Hy Hne. specialize (Hlater y Hy Hne). unfold laterThan in Hlater.
  destruct (releaseTime getTime releases key) as [|tk]; [destruct Hlater|].
  destruct (releaseTime getTime releases y) as [|ty]; [destruct Hlater|].
  simpl. split; [apply Z.ltb_ge | apply Z.ltb_lt]; lia.
Qed.

(** When every date is valid, no release is dated later than the one
    picked. *)
Lemma latestReleaseKey_max releases key :
  (forall k, In k (keys releases) ->
     exists t, releaseTime getTime releases k = Num t) ->
  latestReleaseKey getTime releases = Some key ->
  forall k, In k (keys releases) ->
    timeOr0 getTime releases k <= timeOr0 getTime releases key.
Proof.
  intros Hvalid Hpick.
  unfold latestReleaseKey in Hpick.
  eapply (hd_sort_max _ (timeOr0 getTime releases)); [|exact Hpick].
  intros a b Ha Hb. unfold timeOr0.
  destruct (Hvalid a Ha) as [ta ->]. destruct (Hvalid b Hb) as [tb ->].
  reflexivity.
Qed.

Lemma consolidationTarget_Some releaseInfo releases key latest :
  consolidationTarget getTime releaseInfo releases = Some (key, latest)
  <-> ReleaseInfo.consolidateWithPrevious releaseInfo = Some true
      /\ latestReleaseKey getTime releases = Some key
      /\ get key releases = Some latest
      /\ Release.title latest = ReleaseInfo.title releaseInfo.
Proof.
  unfold consolidationTarget. split.
  - destruct (ReleaseInfo.consolidateWithPrevious releaseInfo) as [[|]|];
      try discriminate.
    destruct (latestReleaseKey getTime releases) as [k|]; [|discriminate].
    destruct (get k releases) as [r|] eqn:Hget; [|discriminate].
    destruct (String.eqb_spec (Release.title r) (ReleaseInfo.title releaseInfo));
      [|discriminate].
    intros [= -> ->]. auto.
  - intros (-> & -> & -> & ->). now rewrite String.eqb_refl.
Qed.

Lemma consolidationTarget_None releaseInfo releases :
  ReleaseInfo.consolidateWithPrevious releaseInfo <> Some true
  \/ releases = []
  \/ (exists key latest,
        latestReleaseKey getTime releases = Some key
        /\ get key releases = Some latest
        /\ Release.title latest <> ReleaseInfo.title releaseInfo) ->
  consolidationTarget getTime releaseInfo releases = None.
Proof.
  unfold consolidationTarget.
  intros [Hflag | [-> | (key & latest & -> & -> & Htitle)]].
  - destruct (ReleaseInfo.consolidateWithPrevious releaseInfo) as [[|]|];
      congruence.
  - now destruct (ReleaseInfo.consolidateWithPrevious releaseInfo) as [[|]|].
  - apply String.eqb_neq in Htitle. rewrite Htitle.
    now destruct (ReleaseInfo.consolidateWithPrevious releaseInfo) as [[|]|].
Qed.

End LatestRelease.

(** ** The release ledger *)

Section Ledger.

Import JsObject VersionManager.
Variable getTime : string -> number.

Lemma incrementVersion_changelog current type :
  VersionInfo.changelog (incrementVersion current type)
  = VersionInfo.changelog current.
Proof. now destruct type. Qed.

Lemma incrementVersion_releases current type :
  VersionInfo.releases (incrementVersion current type)
  = VersionInfo.releases current.
Proof. now destruct type. Qed.

Lemma incrementVersion_hasFourParts current type :
  hasFourParts (VersionInfo.version (incrementVersion current type)) = true.
Proof. destruct type; apply hasFourParts_formatVersion. Qed.

Lemma calculateImpactScore_ignores_impactScore
    version date title type summary changes technical score score' :
  calculateImpactScore
    (Release.mk version date title type summary changes technical score)
  = calculateImpactScore
      (Release.mk version date title type summary changes technical score').
Proof. reflexivity. Qed.

(** The document [updateVersion] builds when it is given release
    information: the consolidation target, if there is one, is merged and
    moved under the new version; otherwise a release is created there. *)
Lemma updatedVersion_with_release now type changelogEntry releaseInfo current :
  let next := incrementVersion current type in
  let version := VersionInfo.version next in
  let releases :=
    match VersionInfo.releases current with
    | Some releases => releases
    | None => []
    end in
  updatedVersion getTime now type changelogEntry (Some releaseInfo) current
  = VersionInfo.mk version
      (VersionInfo.major next) (VersionInfo.minor next)
      (VersionInfo.update next) (VersionInfo.build next)
      (set version changelogEntry (VersionInfo.changelog current))
      (Some
         match consolidationTarget getTime releaseInfo releases with
         | Some (key, latest) =>
             let merged := consolidatedRelease now version latest releaseInfo in
             if negb (key =? version)%string
             then delete key (set version merged (set key merged releases))
             else set key merged releases
         | None =>
             set version
               (Release.mk version now (ReleaseInfo.title releaseInfo)
                  (releaseType type) (ReleaseInfo.summary releaseInfo)
                  (ReleaseInfo.changes releaseInfo)
                  (ReleaseInfo.technical releaseInfo)
                  (Some (calculateImpactScore
                     (Release.mk version now (ReleaseInfo.title releaseInfo)
                        (releaseType type) (ReleaseInfo.summary releaseInfo)
                        (ReleaseInfo.changes releaseInfo)
                        (ReleaseInfo.technical releaseInfo) None))))
               releases
         end).
Proof.
  cbv zeta. unfold updatedVersion, consolidationTarget, createNewRelease,
    withReleases.
  cbn [VersionInfo.version VersionInfo.major VersionInfo.minor
       VersionInfo.update VersionInfo.build VersionInfo.changelog
       VersionInfo.releases Release.version Release.date Release.title
       Release.type Release.summary Release.changes Release.technical].
  rewrite incrementVersion_changelog, incrementVersion_releases.
  destruct (ReleaseInfo.consolidateWithPrevious releaseInfo) as [[|]|];
    try reflexivity.
  destruct (VersionInfo.releases current) as [[|e releases]|];
    try reflexivity.
  cbn [keys map List.length Nat.ltb Nat.leb].
  change (fst e :: map fst releases) with (keys (e :: releases)).
  destruct (latestReleaseKey getTime (e :: releases)) as [key|];
    [|reflexivity].
  destruct (get key (e :: releases)) as [latest|]; [|reflexivity].
  destruct (Release.title latest =? ReleaseInfo.title releaseInfo)%string;
    [|reflexivity].
  now destruct (negb (key =? _)%string).
Qed.

Lemma migrated_getCurrentVersion file :
  migrated (getCurrentVersion file) = true.
Proof.
  destruct file as [versionData|]; [|reflexivity].
  apply migrated_migrateVersionFormat.
Qed.

Lemma migrated_parts v :
  migrated v = true <->
  hasThreeParts (VersionInfo.version v) = false
  /\ wf (VersionInfo.changelog v) = true
  /\ noLegacyKey (VersionInfo.changelog v) = true
  /\ match VersionInfo.releases v with
     | Some releases => wf releases = true /\ noLegacyRelease releases = true
     | None => True
     end.
Proof.
  unfold migrated. rewrite !andb_true_iff, negb_true_iff.
  destruct (VersionInfo.releases v);
    rewrite ?andb_true_iff; intuition.
Qed.

Lemma migrated_loadedReleases file :
  wf (loadedReleases file) = true
  /\ noLegacyRelease (loadedReleases file) = true.
Proof.
  unfold loadedReleases.
  pose proof (migrated_getCurrentVersion file) as H.
  apply migrated_parts in H as (_ & _ & _ & H).
  destruct (VersionInfo.releases (getCurrentVersion file)); auto.
Qed.

(** [updateVersion] keeps a migrated document migrated, so that migrating
    it again before the write changes nothing. *)
Lemma migrated_updatedVersion now type changelogEntry releaseInfo current :
  migrated current = true ->
  migrated (updatedVersion getTime now type changelogEntry releaseInfo current)
  = true.
Proof.
  intros H. apply migrated_parts in H as (Hversion & Hwf & Hkeys & Hreleases).
  pose proof (hasFourParts_not_three _
                (incrementVersion_hasFourParts current type)) as Hnext.
  assert (Hchangelog :
    wf (set (VersionInfo.version (incrementVersion current type))
          changelogEntry (VersionInfo.changelog current)) = true
    /\ noLegacyKey
         (set (VersionInfo.version (incrementVersion current type))
            changelogEntry (VersionInfo.changelog current)) = true).
  { split; [now apply wf_set|]. unfold noLegacyKey in *.
    apply forallb_set; [|assumption]. simpl. now rewrite Hnext. }
  destruct releaseInfo as [releaseInfo|].
  - rewrite updatedVersion_with_release. cbv zeta. apply migrated_parts.
    cbn [VersionInfo.version VersionInfo.changelog VersionInfo.releases].
    split; [assumption|]. split; [apply Hchangelog|].
    split; [apply Hchangelog|].
    assert (Hrels :
      wf match VersionInfo.releases current with
         | Some releases => releases
         | None => []
         end = true
      /\ noLegacyRelease
           match VersionInfo.releases current with
           | Some releases => releases
           | None => []
           end = true).
    { destruct (VersionInfo.releases current); [assumption | now split]. }
    destruct Hrels as [Hwf' Hlegacy].
    set (releases := match VersionInfo.releases current with
                     | Some releases => releases
                     | None => []
                     end) in *.
    destruct (consolidationTarget getTime releaseInfo releases)
      as [[key latest]|] eqn:Htarget.
    + apply consolidationTarget_Some in Htarget as (_ & _ & Hget & _).
      assert (Hkey : hasThreeParts key = false).
      { unfold noLegacyRelease in Hlegacy.
        pose proof (forallb_get _ _ _ _ Hlegacy Hget) as H. simpl in H.
        apply andb_true_iff in H as [H _]. now apply negb_true_iff. }
      cbv zeta.
      assert (Hmerged : forall k, hasThreeParts k = false ->
        negb (hasThreeParts (fst (k,
          consolidatedRelease now
            (VersionInfo.version (incrementVersion current type))
            latest releaseInfo)))
        && negb (hasThreeParts (Release.version (snd (k,
          consolidatedRelease now
            (VersionInfo.version (incrementVersion current type))
            latest releaseInfo)))) = true).
      { intros k Hk. simpl. now rewrite Hk, Hnext. }
      destruct (negb (key =? _)%string).
      * split; [now apply wf_delete, wf_set, wf_set|].
        unfold noLegacyRelease, delete. apply forallb_filter.
        apply forallb_set; [now apply Hmerged|].
        apply forallb_set; [now apply Hmerged | assumption].
      * split; [now apply wf_set|].
        unfold noLegacyRelease.
        apply forallb_set; [now apply Hmerged | assumption].
    + split; [now apply wf_set|]. unfold noLegacyRelease.
      apply forallb_set; [|assumption]. simpl. now rewrite Hnext.
  - unfold updatedVersion. apply migrated_parts.
    cbn [VersionInfo.version VersionInfo.changelog VersionInfo.releases].
    rewrite incrementVersion_changelog, incrementVersion_releases.
    repeat split; try assumption; apply Hchangelog.
Qed.

(** What is written is what is returned, and it is the document built
    before the final migration. *)
Lemma updateVersion_result now type changelogEntry releaseInfo file :
  updateVersion getTime now type changelogEntry releaseInfo file
  = (Some (asAny (updatedVersion getTime now type changelogEntry releaseInfo
                    (getCurrentVersion file))),
     updatedVersion getTime now type changelogEntry releaseInfo
       (getCurrentVersion file)).
Proof.
  unfold updateVersion. cbv zeta.
  now rewrite migrateVersionFormat_same
    by apply migrated_updatedVersion, migrated_getCurrentVersion.
Qed.

End Ledger.

(** ** Consolidation and creation of releases *)

Section Releases.

Import JsObject VersionManager.







(** The scenario of the specification: one release "Fix login" with the
    changes [A]; consolidating [A; B] leaves one release, under the new
    version, with the changes [A; B]. *)
Lemma consolidation_example :
  let file :=
    Some (VersionData.mk "1.02.003.000" 1 2 3 (Some 0)
            [("1.02.003.000", "Fix login")]
            (Some [("1.02.003.000",
                    Examples.fixLogin "1.02.003.000"
                      "2025-08-17T01:04:00.000Z")])) in
  VersionInfo.releases
    (snd (updateVersion JsDate.isoTime Examples.later Build "Fix login again"
            (Some Examples.fixLoginAgain) file))
  = Some [("1.02.003.001",
           Release.mk "1.02.003.001" Examples.later "Fix login" "fix" "S2"
             ["A"; "B"] None (Some (Num 30)))].
Proof. vm_compute. reflexivity. Qed.




(** The scenario of the specification: with another title the release that
    was there is kept and a new one is added. *)
Lemma creation_example :
  let file :=
    Some (VersionData.mk "1.02.003.000" 1 2 3 (Some 0)
            [("1.02.003.000", "Fix login")]
            (Some [("1.02.003.000",
                    Examples.fixLogin "1.02.003.000"
                      "2025-08-17T01:04:00.000Z")])) in
  VersionInfo.releases
    (snd (updateVersion JsDate.isoTime Examples.later Build "Unrelated fix"
            (Some Examples.unrelatedFix) file))
  = Some [("1.02.003.000",
           Examples.fixLogin "1.02.003.000" "2025-08-17T01:04:00.000Z");
          ("1.02.003.001",
           Release.mk "1.02.003.001" Examples.later "Unrelated fix" "fix"
             "S2" ["A"; "B"] None (Some (Num 30)))].
Proof. vm_compute. reflexivity. Qed.

(** ** Version strings of the saved document *)

(** [updateVersion] saves a document in the migrated state: no 3-part
    version string is left in it. *)
Lemma updateVersion_saves_migrated
    (getTime : string -> number) (now : string) (type : IncrementType)
    (changelogEntry : string) (releaseInfo : option ReleaseInfo.t)
    (file : option VersionData.t) :
  exists saved,
    fst (updateVersion getTime now type changelogEntry releaseInfo file)
    = Some (asAny saved)
    /\ migrated saved = true.
Proof.
  rewrite updateVersion_result. cbn [fst]. eexists. split; [reflexivity|].
  apply migrated_updatedVersion, migrated_getCurrentVersion.
Qed.

(** So does [addChangelogEntry]: its key is the version of the migrated
    document. *)
Lemma addChangelogEntry_saves_migrated
    (changelogEntry : string) (file : option VersionData.t) :
  exists saved,
    addChangelogEntry changelogEntry file = Some (asAny saved)
    /\ migrated saved = true.
Proof.
  unfold addChangelogEntry. cbv zeta. eexists. split; [reflexivity|].
  pose proof (migrated_getCurrentVersion file) as H.
  apply migrated_parts in H as (Hversion & Hwf & Hkeys & Hreleases).
  apply migrated_parts.
  cbn [VersionInfo.version VersionInfo.changelog VersionInfo.releases].
  split; [assumption|]. split; [now apply wf_set|]. split; [|assumption].
  unfold noLegacyKey in *. apply forallb_set; [|assumption].
  simpl. now rewrite Hversion.
Qed.

Lemma hasFourParts_withBuild key :
  versionLike key = true -> hasFourParts (withBuild key) = true.
Proof.
  unfold versionLike, withBuild. intros H.
  destruct (hasThreeParts key) eqn:E; [|exact H].
  unfold hasThreeParts, hasFourParts in *.
  apply Nat.eqb_eq in E. apply Nat.eqb_eq.
  pose proof (split_length_append "." key ".000") as Hlen.
  simpl (List.length (JsString.split "." ".000")) in Hlen. lia.
Qed.

(** Reading a version-keyed file gives a document whose version strings
    all have 4 parts. *)
Lemma fourParts_getCurrentVersion (file : option VersionData.t) :
  match file with
  | Some versionData => versionKeyed versionData = true
  | None => True
  end ->
  fourPartsThroughout (getCurrentVersion file) = true.
Proof.
  destruct file as [d|]; [|reflexivity].
  unfold versionKeyed, fourPartsThroughout. rewrite !andb_true_iff.
  intros [[Hversion Hchangelog] Hreleases].
  unfold getCurrentVersion, migrateVersionFormat.
  cbn [VersionInfo.version VersionInfo.changelog VersionInfo.releases].
  repeat split.
  - pose proof (hasFourParts_withBuild _ Hversion) as H.
    unfold withBuild in H. unfold versionLike in Hversion.
    destruct (hasThreeParts (VersionData.version d)) eqn:E3.
    + destruct (String.eqb_spec (VersionData.version d) "") as [E|_];
        [rewrite E in E3; discriminate | exact H].
    + now rewrite andb_false_r.
  - apply (forallb_fold_set _ withBuild (fun value => value));
      [|reflexivity].
    intros e He. rewrite forallb_forall in Hchangelog.
    apply hasFourParts_withBuild. now apply Hchangelog.
  - destruct (VersionData.releases d) as [releases|]; [|reflexivity].
    apply (forallb_fold_set _ withBuild migratedRelease); [|reflexivity].
    intros e He. rewrite forallb_forall in Hreleases.
    specialize (Hreleases e He). apply andb_true_iff in Hreleases as [Hk Hv].
    simpl. now rewrite !hasFourParts_withBuild.
Qed.

(** On a version-keyed file, or none, [updateVersion] saves a document all
    of whose keys and release versions have 4 parts. *)
Lemma updateVersion_saves_fourParts
    (getTime : string -> number) (now : string) (type : IncrementType)
    (changelogEntry : string) (releaseInfo : option ReleaseInfo.t)
    (file : option VersionData.t) :
  match file with
  | Some versionData => versionKeyed versionData = true
  | None => True
  end ->
  exists saved,
    fst (updateVersion getTime now type changelogEntry releaseInfo file)
    = Some (asAny saved)
    /\ fourPartsThroughout saved = true.
Proof.
  intros Hfile. rewrite updateVersion_result. cbn [fst].
  eexists. split; [reflexivity|].
  pose proof (fourParts_getCurrentVersion file Hfile) as Hcur.
  unfold fourPartsThroughout in Hcur.
  apply andb_true_iff in Hcur as [Hcur Hreleases].
  apply andb_true_iff in Hcur as [_ Hchangelog].
  pose proof (incrementVersion_hasFourParts (getCurrentVersion file) type)
    as Hnext.
  assert (Hlog :
    forallb (fun e : string * string => hasFourParts (fst e))
      (set (VersionInfo.version (incrementVersion (getCurrentVersion file) type))
         changelogEntry (VersionInfo.changelog (getCurrentVersion file)))
    = true) by now apply forallb_set.
  destruct releaseInfo as [releaseInfo|].
  - rewrite updatedVersion_with_release. cbv zeta.
    unfold fourPartsThroughout.
    cbn [VersionInfo.version VersionInfo.changelog VersionInfo.releases].
    rewrite Hnext, Hlog. cbn [andb].
    fold (loadedReleases file).
    assert (Hrels :
      forallb (fun e => hasFourParts (fst e)
                        && hasFourParts (Release.version (snd e)))
        (loadedReleases file) = true).
    { unfold loadedReleases.
      now destruct (VersionInfo.releases (getCurrentVersion file)). }
    destruct (consolidationTarget getTime releaseInfo (loadedReleases file))
      as [[key latest]|] eqn:Htarget.
    + apply consolidationTarget_Some in Htarget as (_ & _ & Hget & _).
      pose proof (forallb_get _ _ _ _ Hrels Hget) as Hkey. simpl in Hkey.
      apply andb_true_iff in Hkey as [Hkey _].
      cbv zeta. destruct (negb (key =? _)%string).
      * unfold delete. apply forallb_filter.
        apply forallb_set; [simpl; now rewrite Hnext|].
        apply forallb_set; [simpl; now rewrite Hkey, Hnext | assumption].
      * apply forallb_set; [simpl; now rewrite Hkey, Hnext | assumption].
    + apply forallb_set; [simpl; now rewrite Hnext | assumption].
  - unfold updatedVersion, fourPartsThroughout.
    cbn [VersionInfo.version VersionInfo.changelog VersionInfo.releases].
    rewrite incrementVersion_changelog, incrementVersion_releases.
    now rewrite Hnext, Hlog, Hreleases.
Qed.

(** [addRelease] saves the release under its own version string, whatever
    its form. *)
Lemma addRelease_saves_under_version
    (release : Release.t) (file : option VersionData.t) :
  exists saved releases,
    addRelease release file = Some saved
    /\ VersionData.releases saved = Some releases
    /\ get (Release.version release) releases = Some release.
Proof.
  unfold addRelease. cbv zeta. do 2 eexists.
  split; [reflexivity|]. split; [reflexivity|]. apply get_set_same.
Qed.

(** C4 fails for [addRelease]: it writes without migrating again, so a
    release with a 3-part version is saved under a 3-part key. *)
Theorem addRelease_keeps_legacy_key :
  exists saved releases,
    addRelease Examples.legacyRelease None = Some saved
    /\ VersionData.releases saved = Some releases
    /\ get "1.02.003" releases = Some Examples.legacyRelease
    /\ hasThreeParts "1.02.003" = true
    /\ hasFourParts "1.02.003" = false
    /\ hasFourParts (Release.version Examples.legacyRelease) = false.
Proof. do 2 eexists. repeat split. Qed.

End Releases.

(* ------------------------------------------------------------------ *)
(** * Further properties of the code *)

(** ** Version strings and numbers *)

Section VersionNumbers.

Import JsString JsNumber VersionManager.

Lemma incrementVersion_versionBefore (v : VersionInfo.t) (type : IncrementType) :
  versionBefore (versionNumbers v) (versionNumbers (incrementVersion v type)).
Proof. destruct type; unfold versionBefore, versionNumbers; simpl; lia. Qed.

Lemma incrementVersion_plainDecimal (v : VersionInfo.t)
    (type : IncrementType) :
  incrementableNumbers v ->
  let n := incrementVersion v type in
  plainDecimal (VersionInfo.major n) /\ plainDecimal (VersionInfo.minor n)
  /\ plainDecimal (VersionInfo.update n)
  /\ plainDecimal (VersionInfo.build n).
Proof.
  unfold incrementableNumbers, incrementable, MAX_SAFE_INTEGER, plainDecimal.
  destruct type; simpl; lia.
Qed.

Lemma parseVersion_formatVersion major minor update build :
  0 <= major -> 0 <= minor -> 0 <= update -> 0 <= build ->
  parseVersion (formatVersion major minor update (Some build))
  = ParsedVersion.mk (Num major) (Num minor) (Num update) (Num build).
Proof.
  intros. unfold parseVersion. rewrite split_formatVersion. cbn [nth_error].
  rewrite !orElse_some
    by first [apply toString_not_empty | apply padStart_toString_not_empty].
  now rewrite !parseInt_padStart, parseInt_toString by assumption.
Qed.

(** X1. The version string [incrementVersion] writes parses back to the
    numeric components it computed, whenever the components it started
    from are non-negative integers below the largest safe integer. *)
Theorem parseVersion_incrementVersion (v : VersionInfo.t) (type : IncrementType)
    (Hnumbers : incrementableNumbers v) :
  let n := incrementVersion v type in
  parseVersion (VersionInfo.version n)
  = ParsedVersion.mk (Num (VersionInfo.major n)) (Num (VersionInfo.minor n))
      (Num (VersionInfo.update n)) (Num (VersionInfo.build n)).
Proof.
  cbv zeta.
  destruct (incrementVersion_plainDecimal v type Hnumbers)
    as (H1 & H2 & H3 & H4).
  replace (VersionInfo.version (incrementVersion v type))
    with (formatVersion (VersionInfo.major (incrementVersion v type))
            (VersionInfo.minor (incrementVersion v type))
            (VersionInfo.update (incrementVersion v type))
            (Some (VersionInfo.build (incrementVersion v type))))
    by now destruct type.
  apply parseVersion_formatVersion;
    [apply H1 | apply H2 | apply H3 | apply H4].
Qed.

Lemma parseVersion_incrementVersion_witness :
  parseVersion
    (VersionInfo.version
       (incrementVersion (VersionInfo.mk "stale" 1 99 999 7 [] None) Update))
  = ParsedVersion.mk (Num 1) (Num 99) (Num 1000) (Num 0).
Proof.
  apply (parseVersion_incrementVersion
           (VersionInfo.mk "stale" 1 99 999 7 [] None) Update).
  unfold incrementableNumbers, incrementable, MAX_SAFE_INTEGER. simpl. lia.
Defined.




End VersionNumbers.

(** ** More on the impact scorer *)

Section ScorerFacts.

Import JsString.

(** X3. The type alone sets a floor for the level: a major release is
    never below High, a feature never below Medium, an update never below
    Low, whatever its texts. *)
Theorem level_floor_by_type (release : Release.t) :
  let rank score := tierRank (ImpactLevel.level (getImpactLevel score)) in
  (Release.type release = "major" ->
   exists score,
     calculateImpactScore release = Num score /\ (3 <= rank score)%nat)
  /\ (Release.type release = "feature" ->
      exists score,
        calculateImpactScore release = Num score /\ (2 <= rank score)%nat)
  /\ (Release.type release = "update" ->
      exists score,
        calculateImpactScore release = Num score /\ (1 <= rank score)%nat).
Proof.
  cbv zeta. rewrite score_formula.
  set (rest := 5 * Z.of_nat (List.length (Release.changes release))
               + 3 * Z.of_nat (List.length (technicalEntries release))
               + 10 * Z.of_nat (List.length
                   (filter (includes (allText release)) highImpactKeywords))).
  assert (Hrest : 0 <= rest) by (unfold rest; lia).
  replace (basePoints (Release.type release)
           + 5 * Z.of_nat (List.length (Release.changes release))
           + 3 * Z.of_nat (List.length (technicalEntries release))
           + 10 * Z.of_nat (List.length
               (filter (includes (allText release)) highImpactKeywords)))
    with (basePoints (Release.type release) + rest) by (unfold rest; lia).
  assert (Hrank : forall score, 
    (100 <= score -> (3 <= tierRank (ImpactLevel.level (getImpactLevel score)))%nat)
    /\ (60 <= score -> (2 <= tierRank (ImpactLevel.level (getImpactLevel score)))%nat)
    /\ (30 <= score -> (1 <= tierRank (ImpactLevel.level (getImpactLevel score)))%nat)).
  { intros score. unfold getImpactLevel.
    destruct (Z.leb_spec 150 score); [simpl; unfold tierRank; simpl; lia|].
    destruct (Z.leb_spec 100 score); [simpl; unfold tierRank; simpl; lia|].
    destruct (Z.leb_spec 60 score); [simpl; unfold tierRank; simpl; lia|].
    destruct (Z.leb_spec 30 score); simpl; unfold tierRank; simpl; lia. }
  split; [|split]; intros ->; cbn [inherited existsb String.eqb Ascii.eqb
                                      objectPrototypeNames Bool.eqb orb];
    (eexists; split; [reflexivity|]).
  - apply Hrank. change (basePoints "major") with 100. lia.
  - apply Hrank. change (basePoints "feature") with 70. lia.
  - apply Hrank. change (basePoints "update") with 40. lia.
Qed.

Lemma level_floor_by_type_witness :
  exists score,
    calculateImpactScore (Release.mk "" "" "Rewrite" "major" "" [] None None)
    = Num score
    /\ (3 <= tierRank (ImpactLevel.level (getImpactLevel score)))%nat.
Proof.
  apply (proj1 (level_floor_by_type
                  (Release.mk "" "" "Rewrite" "major" "" [] None None))).
  reflexivity.
Defined.

(** X4. A higher score never gets a lower level. *)
Theorem getImpactLevel_monotone (score score' : Z) (Hle : score <= score') :
  (tierRank (ImpactLevel.level (getImpactLevel score))
   <= tierRank (ImpactLevel.level (getImpactLevel score')))%nat.
Proof.
  unfold getImpactLevel.
  destruct (Z.leb_spec 150 score), (Z.leb_spec 150 score');
    destruct (Z.leb_spec 100 score), (Z.leb_spec 100 score');
    destruct (Z.leb_spec 60 score), (Z.leb_spec 60 score');
    destruct (Z.leb_spec 30 score), (Z.leb_spec 30 score');
    simpl; unfold tierRank; simpl; lia.
Qed.

Lemma getImpactLevel_monotone_witness :
  (tierRank (ImpactLevel.level (getImpactLevel 59))
   <= tierRank (ImpactLevel.level (getImpactLevel 60)))%nat.
Proof. apply (getImpactLevel_monotone 59 60). lia. Defined.

Lemma occursIn_append_r keyword text extra :
  occursIn keyword text -> occursIn keyword (text ++ extra).
Proof.
  intros (before & after & ->). exists before, (after ++ extra).
  now rewrite !append_assoc.
Qed.

Lemma occursIn_append_l keyword text extra :
  occursIn keyword text -> occursIn keyword (extra ++ text).
Proof.
  intros (before & after & ->). exists (extra ++ before), after.
  now rewrite !append_assoc.
Qed.

Lemma startsWith_before_space a b keyword :
  noSpace keyword = true ->
  startsWith (a ++ String " " b) keyword = true -> startsWith a keyword = true.
Proof.
  revert a. induction keyword as [|c keyword IH]; intros a Hk H;
    [reflexivity|].
  simpl in Hk. apply andb_true_iff in Hk as [Hc Hk].
  destruct a as [|x a]; simpl in H |- *.
  - apply andb_true_iff in H as [H _]. now rewrite H in Hc.
  - apply andb_true_iff in H as [Hx H]. rewrite Hx. simpl. now apply IH.
Qed.

(** A keyword without a space cannot straddle a space: it occurs on one
    side of it. *)
Lemma includes_around_space a b keyword :
  noSpace keyword = true ->
  includes (a ++ String " " b) keyword = true ->
  includes a keyword = true \/ includes b keyword = true.
Proof.
  intros Hk. induction a as [|x a IH]; intros H.
  - change ("" ++ String " " b) with (String " " b) in H.
    cbn [includes] in H. apply orb_true_iff in H as [H | H]; [|now right].
    left. apply (startsWith_before_space "" b) in H; [|assumption].
    now destruct keyword.
  - change (String x a ++ String " " b) with (String x (a ++ String " " b)) in H.
    cbn [includes] in H. apply orb_true_iff in H as [H | H].
    + left. cbn [includes]. apply orb_true_iff. left.
      now apply (startsWith_before_space (String x a) b).
    + destruct (IH H) as [Ha | Hb]; [left | now right].
      cbn [includes]. now rewrite Ha, orb_true_r.
Qed.

Lemma toLowerCase_append a b :
  toLowerCase (a ++ b) = toLowerCase a ++ toLowerCase b.
Proof. induction a as [|c a IH]; simpl; congruence. Qed.

Lemma join_snoc (l : list string) (x : string) :
  join " " (l ++ [x])
  = join " " l ++ (match l with [] => "" | _ => " " end) ++ x.
Proof.
  unfold join. induction l as [|a l IH]; [reflexivity|].
  destruct l as [|b l].
  - simpl. reflexivity.
  - change (String.concat " " ((a :: b :: l) ++ [x]))
      with (a ++ " " ++ String.concat " " ((b :: l) ++ [x])).
    rewrite IH. change (String.concat " " (a :: b :: l))
      with (a ++ " " ++ String.concat " " (b :: l)).
    now rewrite !append_assoc.
Qed.

Lemma filter_length_mono {A} (p q : A -> bool) (l : list A) :
  (forall x, In x l -> p x = true -> q x = true) ->
  (List.length (filter p l) <= List.length (filter q l))%nat.
Proof.
  induction l as [|a l IH]; intros H; simpl; [lia|].
  assert (IH' : (List.length (filter p l) <= List.length (filter q l))%nat).
  { apply IH. intros x Hx. apply H. now right. }
  destruct (p a) eqn:Hp.
  - rewrite (H a (or_introl eq_refl) Hp). simpl. lia.
  - destruct (q a); simpl; lia.
Qed.

Lemma highImpactKeywords_noSpace keyword :
  In keyword highImpactKeywords -> noSpace keyword = true.
Proof.
  intros H.
  assert (Hall : forallb noSpace highImpactKeywords = true) by reflexivity.
  rewrite forallb_forall in Hall. now apply Hall.
Qed.

(** X5. One more change, or one more technical entry, never lowers the
    score. *)
Theorem calculateImpactScore_monotone (release : Release.t) (entry : string) :
  notLower (calculateImpactScore release)
    (calculateImpactScore (addChange release entry))
  /\ notLower (calculateImpactScore release)
       (calculateImpactScore (addTechnical release entry)).
Proof.
  rewrite !score_formula.
  change (Release.type (addChange release entry)) with (Release.type release).
  change (Release.type (addTechnical release entry))
    with (Release.type release).
  destruct (inherited (Release.type release)); [split; exact I|].
  cbn [notLower]. split.
  - assert (Hkw :
      (List.length (filter (includes (allText release)) highImpactKeywords)
       <= List.length (filter (includes (allText (addChange release entry)))
                         highImpactKeywords))%nat).
    { apply filter_length_mono. intros keyword Hin Hocc.
      unfold allText, addChange in *.
      cbn [Release.title Release.summary Release.changes Release.technical].
      rewrite join_snoc.
      set (tech := match Release.technical release with
                   | Some technical => join " " technical
                   | None => ""
                   end) in *.
      set (sep := match Release.changes release with [] => "" | _ => " " end).
      replace (Release.title release ++ " " ++ Release.summary release ++ " "
               ++ join " " (Release.changes release) ++ " " ++ tech)
        with ((Release.title release ++ " " ++ Release.summary release ++ " "
               ++ join " " (Release.changes release)) ++ String " " tech)
        in Hocc by now rewrite !append_assoc.
      replace (Release.title release ++ " " ++ Release.summary release ++ " "
               ++ (join " " (Release.changes release) ++ sep ++ entry)
               ++ " " ++ tech)
        with ((Release.title release ++ " " ++ Release.summary release ++ " "
               ++ join " " (Release.changes release))
              ++ (sep ++ entry ++ " ") ++ tech)
        by now rewrite !append_assoc.
      rewrite toLowerCase_append in Hocc.
      rewrite toLowerCase_append,
        (toLowerCase_append (sep ++ entry ++ " ") tech).
      apply includes_around_space in Hocc;
        [|now apply highImpactKeywords_noSpace].
      apply includes_spec. destruct Hocc as [H | H]; apply includes_spec in H.
      - now apply occursIn_append_r.
      - apply occursIn_append_l. now apply occursIn_append_l. }
    change (Release.changes (addChange release entry))
      with (Release.changes release ++ [entry])%list.
    change (technicalEntries (addChange release entry))
      with (technicalEntries release).
    rewrite length_app. cbn [List.length]. lia.
  - assert (Hkw :
      (List.length (filter (includes (allText release)) highImpactKeywords)
       <= List.length (filter (includes (allText (addTechnical release entry)))
                         highImpactKeywords))%nat).
    { apply filter_length_mono. intros keyword Hin Hocc.
      unfold allText, addTechnical in *.
      cbn [Release.title Release.summary Release.changes Release.technical].
      rewrite join_snoc.
      replace (match Release.technical release with
               | Some technical => join " " technical
               | None => ""
               end) with (join " " (technicalEntries release)) in Hocc
        by (unfold technicalEntries; now destruct (Release.technical release)).
      set (sep := match technicalEntries release with [] => "" | _ => " " end).
      replace (Release.title release ++ " " ++ Release.summary release ++ " "
               ++ join " " (Release.changes release) ++ " "
               ++ join " " (technicalEntries release) ++ sep ++ entry)
        with ((Release.title release ++ " " ++ Release.summary release ++ " "
               ++ join " " (Release.changes release) ++ " "
               ++ join " " (technicalEntries release)) ++ sep ++ entry)
        by now rewrite !append_assoc.
      rewrite toLowerCase_append.
      apply includes_spec. apply includes_spec in Hocc.
      now apply occursIn_append_r. }
    change (Release.changes (addTechnical release entry))
      with (Release.changes release).
    change (technicalEntries (addTechnical release entry))
      with (technicalEntries release ++ [entry])%list.
    rewrite length_app. cbn [List.length]. lia.
Qed.

End ScorerFacts.

Section CaseInsensitive.

Import JsString.

Lemma lowerChar_idempotent c : lowerChar (lowerChar c) = lowerChar c.
Proof. destruct c as [[] [] [] [] [] [] [] []]; reflexivity. Qed.

Lemma toLowerCase_idempotent s : toLowerCase (toLowerCase s) = toLowerCase s.
Proof.
  induction s as [|c s IH]; simpl; [reflexivity|].
  now rewrite lowerChar_idempotent, IH.
Qed.

Lemma toLowerCase_join (l : list string) :
  toLowerCase (join " " (map toLowerCase l)) = toLowerCase (join " " l).
Proof.
  unfold join. induction l as [|a l IH]; [reflexivity|].
  destruct l as [|b l].
  - simpl. apply toLowerCase_idempotent.
  - change (String.concat " " (map toLowerCase (a :: b :: l)))
      with (toLowerCase a ++ " "
            ++ String.concat " " (map toLowerCase (b :: l))).
    change (String.concat " " (a :: b :: l))
      with (a ++ " " ++ String.concat " " (b :: l)).
    rewrite !toLowerCase_append, IH. now rewrite toLowerCase_idempotent.
Qed.

(** X6. Keywords are matched without regard to case: putting the title,
    the summary and every entry in lower case leaves the score as it
    is. *)
Theorem calculateImpactScore_case_insensitive (release : Release.t) :
  calculateImpactScore (lowerCased release) = calculateImpactScore release.
Proof.
  assert (Htext : allText (lowerCased release) = allText release).
  { unfold allText, lowerCased.
    cbn [Release.title Release.summary Release.changes Release.technical].
    rewrite !toLowerCase_append, !toLowerCase_idempotent, toLowerCase_join.
    do 6 f_equal.
    destruct (Release.technical release) as [technical|]; [|reflexivity].
    apply toLowerCase_join. }
  rewrite !score_formula, Htext.
  change (Release.type (lowerCased release)) with (Release.type release).
  change (Release.changes (lowerCased release))
    with (map toLowerCase (Release.changes release)).
  replace (List.length (technicalEntries (lowerCased release)))
    with (List.length (technicalEntries release)).
  - now rewrite length_map.
  - unfold technicalEntries, lowerCased. cbn [Release.technical].
    destruct (Release.technical release); [|reflexivity].
    simpl. now rewrite length_map.
Qed.

End CaseInsensitive.

(** ** Reading, updating and reading again *)

Section LedgerFacts.

Import JsObject VersionManager.
Variable getTime : string -> number.

Lemma updatedVersion_version now type changelogEntry releaseInfo current :
  let next := incrementVersion current type in
  let v := updatedVersion getTime now type changelogEntry releaseInfo current in
  VersionInfo.version v = VersionInfo.version next
  /\ versionNumbers v = versionNumbers next
  /\ VersionInfo.changelog v
     = set (VersionInfo.version next) changelogEntry
         (VersionInfo.changelog current).
Proof.
  cbv zeta. destruct releaseInfo as [releaseInfo|].
  - rewrite updatedVersion_with_release. cbv zeta. now repeat split.
  - unfold updatedVersion. cbn [VersionInfo.version VersionInfo.changelog].
    rewrite incrementVersion_changelog. now repeat split.
Qed.

(** X7. The file is missing or holds a version document, and the numbers
    read are non-negative integers below the largest safe integer:
    [updateVersion] saves and returns the same document; its version
    string is the 4-part form of its own numbers, and these come after the
    numbers that were read. *)
Theorem updateVersion_advances
    (now : string) (type : IncrementType) (changelogEntry : string)
    (releaseInfo : option ReleaseInfo.t) (file : option VersionData.t)
    (Hsafe : incrementableNumbers (getCurrentVersion file)) :
  let result :=
    updateVersion getTime now type changelogEntry releaseInfo file in
  let saved := snd result in
  fst result = Some (asAny saved)
  /\ versionNumbers saved
     = versionNumbers (incrementVersion (getCurrentVersion file) type)
  /\ VersionInfo.version saved
     = formatVersion (VersionInfo.major saved) (VersionInfo.minor saved)
         (VersionInfo.update saved) (Some (VersionInfo.build saved))
  /\ versionBefore (versionNumbers (getCurrentVersion file))
       (versionNumbers saved).
Proof.
  cbv zeta. rewrite updateVersion_result. cbn [fst snd].
  destruct (updatedVersion_version now type changelogEntry releaseInfo
              (getCurrentVersion file)) as (Hversion & Hnumbers & _).
  split; [reflexivity|]. split; [exact Hnumbers|]. split.
  - rewrite Hversion. unfold versionNumbers in Hnumbers.
    injection Hnumbers as -> -> -> ->. now destruct type.
  - rewrite Hnumbers. apply incrementVersion_versionBefore.
Qed.

(** X8. What [updateVersion] wrote is what the next call reads: reading
    the file it left gives the document it returned. *)
Theorem updateVersion_read_back
    (now : string) (type : IncrementType) (changelogEntry : string)
    (releaseInfo : option ReleaseInfo.t) (file : option VersionData.t) :
  let result :=
    updateVersion getTime now type changelogEntry releaseInfo file in
  getCurrentVersion (fst result) = snd result.
Proof.
  cbv zeta. rewrite updateVersion_result. cbn [fst snd getCurrentVersion].
  apply migrateVersionFormat_same, migrated_updatedVersion,
    migrated_getCurrentVersion.
Qed.

(** X9. The changelog of the saved document holds the entry of the call
    under the new version, overwriting what was there, and every other
    entry as it was read. *)
Theorem updateVersion_changelog
    (now : string) (type : IncrementType) (changelogEntry : string)
    (releaseInfo : option ReleaseInfo.t) (file : option VersionData.t) :
  let result :=
    updateVersion getTime now type changelogEntry releaseInfo file in
  let version := VersionInfo.version (snd result) in
  get version (VersionInfo.changelog (snd result)) = Some changelogEntry
  /\ forall other, other <> version ->
       get other (VersionInfo.changelog (snd result))
       = get other (loadedChangelog file).
Proof.
  cbv zeta. rewrite updateVersion_result. cbn [fst snd].
  destruct (updatedVersion_version now type changelogEntry releaseInfo
              (getCurrentVersion file)) as (Hversion & _ & Hchangelog).
  rewrite Hversion, Hchangelog. split; [apply get_set_same|].
  intros other Hne. now apply get_set_other.
Qed.

(** X10. Without release information the releases are not touched: the
    saved document has the releases that were read. *)
Theorem updateVersion_without_release
    (now : string) (type : IncrementType) (changelogEntry : string)
    (file : option VersionData.t) :
  VersionInfo.releases
    (snd (updateVersion getTime now type changelogEntry None file))
  = VersionInfo.releases (getCurrentVersion file).
Proof.
  rewrite updateVersion_result. cbn [snd]. unfold updatedVersion.
  cbn [VersionInfo.releases]. apply incrementVersion_releases.
Qed.

End LedgerFacts.

Lemma updateVersion_advances_witness :
  versionBefore (0, 1, 12, 0)
    (versionNumbers
       (snd (VersionManager.updateVersion JsDate.isoTime Examples.later Build
               "Fixed typo" None None))).
Proof.
  apply (updateVersion_advances JsDate.isoTime Examples.later Build
           "Fixed typo" None None).
  unfold incrementableNumbers, incrementable, MAX_SAFE_INTEGER. simpl. lia.
Defined.

(** ** Writing twice, counting entries *)

Section ObjectMore.

Import JsObject.
Context {V : Type}.
Implicit Types (o : JsObject V) (k : string) (v : V).

Lemma has_set k v o : has k (set k v o) = true.
Proof.
  destruct (has k (set k v o)) eqn:E; [reflexivity|].
  apply has_false_get in E. now rewrite get_set_same in E.
Qed.

Lemma replace_replace k v v' o :
  replace k v' (replace k v o) = replace k v' o.
Proof.
  induction o as [|[k0 v0] o IH]; simpl; [reflexivity|].
  destruct (k =? k0)%string eqn:E; simpl.
  - now rewrite String.eqb_refl.
  - now rewrite E, IH.
Qed.

Lemma replace_insertIndex i k v v' o :
  has k o = false ->
  replace k v' (insertIndex i k v o) = insertIndex i k v' o.
Proof.
  unfold has. induction o as [|[k0 v0] o IH]; simpl.
  - now rewrite String.eqb_refl.
  - intros H. apply orb_false_iff in H as [Hk Ho].
    destruct (arrayIndex k0) as [j|]; [destruct (j <? i)%N|]; simpl;
      rewrite ?Hk, ?String.eqb_refl, ?IH; auto.
Qed.

Lemma replace_append k v v' o :
  has k o = false ->
  replace k v' (o ++ [(k, v)])%list = (o ++ [(k, v')])%list.
Proof.
  unfold has. induction o as [|[k0 v0] o IH]; simpl.
  - now rewrite String.eqb_refl.
  - intros H. apply orb_false_iff in H as [Hk Ho]. now rewrite Hk, IH.
Qed.

(** The last write to a property wins. *)
Lemma set_set k v v' o : set k v' (set k v o) = set k v' o.
Proof.
  unfold set at 1. rewrite has_set. unfold set.
  destruct (has k o) eqn:E.
  - apply replace_replace.
  - destruct (arrayIndex k).
    + now apply replace_insertIndex.
    + now apply replace_append.
Qed.






Lemma find_app_last {A} (p : A -> bool) (l : list A) (a : A) :
  find p (l ++ [a])
  = match find p l with
    | Some x => Some x
    | None => if p a then Some a else None
    end.
Proof.
  induction l as [|b l IH]; simpl; [reflexivity|].
  destruct (p b); [reflexivity | exact IH].
Qed.

(** Looking a key up in an object built entry by entry: the last entry
    written under the key is found. *)
Lemma get_fold_set (f : string -> string) (g : V -> V) (K : string)
    (l acc : JsObject V) :
  get K (fold_left (fun acc e => set (f (fst e)) (g (snd e)) acc) l acc)
  = match find (fun e => (f (fst e) =? K)%string) (rev l) with
    | Some e => Some (g (snd e))
    | None => get K acc
    end.
Proof.
  revert acc. induction l as [|e l IH]; intros acc; [reflexivity|].
  cbn [fold_left rev]. rewrite IH, find_app_last.
  destruct (find _ (rev l)); [reflexivity|].
  destruct (String.eqb_spec (f (fst e)) K) as [<- | Hne].
  - apply get_set_same.
  - apply get_set_other. congruence.
Qed.

End ObjectMore.

(** ** The convenience operations and migration, entry by entry *)

Section Convenience.

Import JsObject VersionManager.

Lemma getCurrentVersion_asAny (v : VersionInfo.t) :
  migrated v = true -> getCurrentVersion (Some (asAny v)) = v.
Proof. apply migrateVersionFormat_same. Qed.

Lemma addChangelogEntry_saved (changelogEntry : string)
    (file : option VersionData.t) :
  let current := getCurrentVersion file in
  let saved :=
    VersionInfo.mk (VersionInfo.version current)
      (VersionInfo.major current) (VersionInfo.minor current)
      (VersionInfo.update current) (VersionInfo.build current)
      (set (VersionInfo.version current) changelogEntry
         (VersionInfo.changelog current))
      (VersionInfo.releases current) in
  addChangelogEntry changelogEntry file = Some (asAny saved)
  /\ getCurrentVersion (addChangelogEntry changelogEntry file) = saved.
Proof.
  cbv zeta. split; [reflexivity|].
  unfold addChangelogEntry. cbv zeta. apply getCurrentVersion_asAny.
  pose proof (migrated_getCurrentVersion file) as H.
  apply migrated_parts in H as (Hversion & Hwf & Hkeys & Hreleases).
  apply migrated_parts.
  cbn [VersionInfo.version VersionInfo.changelog VersionInfo.releases].
  split; [assumption|]. split; [now apply wf_set|]. split; [|assumption].
  unfold noLegacyKey in *. apply forallb_set; [|assumption].
  simpl. now rewrite Hversion.
Qed.


(** X12. Of two changelog entries written for the same version the second
    replaces the first: the file is the one the second call alone would
    have left. *)
Theorem addChangelogEntry_overwrites (first second : string)
    (file : option VersionData.t) :
  addChangelogEntry second (addChangelogEntry first file)
  = addChangelogEntry second file.
Proof.
  destruct (addChangelogEntry_saved first file) as [_ Hread].
  unfold addChangelogEntry at 1. cbv zeta. rewrite Hread.
  cbn [VersionInfo.version VersionInfo.major VersionInfo.minor
       VersionInfo.update VersionInfo.build VersionInfo.changelog
       VersionInfo.releases].
  now rewrite set_set.
Qed.

Lemma arrayIndex_not_version key :
  hasThreeParts key = true -> arrayIndex key = None.
Proof.
  intros H3. destruct (arrayIndex key) as [i|] eqn:E; [|reflexivity].
  apply arrayIndex_toString in E. subst key.
  unfold hasThreeParts in H3.
  now rewrite split_single in H3 by apply noDot_toString.
Qed.

Lemma withReleases_same (v : VersionInfo.t) (releases : JsObject Release.t) :
  VersionInfo.releases v = Some releases -> withReleases v releases = v.
Proof. destruct v. simpl. now intros ->. Qed.

(** X13. No key of the file and no version of the release is
    [__proto__]: reading the file [addRelease] left gives the document that
    was read before, with the release under the migrated form of its
    version.  A release filed under a 3-part version is moved to the 4-part
    key at the next read, replacing a release already stored there. *)
Theorem addRelease_read_back (release : Release.t)
    (file : option VersionData.t)
    (Hfile : ordinaryFile file = true)
    (Hrelease : Release.version release <> "__proto__") :
  getCurrentVersion (addRelease release file)
  = withReleases (getCurrentVersion file)
      (set (withBuild (Release.version release)) (migratedRelease release)
         (loadedReleases file)).
Proof.
  unfold addRelease. cbv zeta. fold (loadedReleases file).
  pose proof (migrated_getCurrentVersion file) as Hcur.
  apply migrated_parts in Hcur as (Hversion & Hwf & Hkeys & _).
  destruct (migrated_loadedReleases file) as [Hwf' Hlegacy].
  remember (loadedReleases file) as rels eqn:Erels.
  remember (getCurrentVersion file) as cur eqn:Ecur.
  clear Erels Ecur Hfile file.
  destruct (hasThreeParts (Release.version release)) eqn:E3.
  - assert (Hhas : has (Release.version release) rels = false).
    { apply not_true_iff_false. intros Hin. apply has_true_In in Hin.
      apply In_keys_get in Hin as [r Hget].
      unfold noLegacyRelease in Hlegacy.
      pose proof (forallb_get _ _ _ _ Hlegacy Hget) as H. simpl in H.
      now rewrite E3 in H. }
    unfold set at 1. rewrite Hhas, (arrayIndex_not_version _ E3).
    unfold getCurrentVersion, migrateVersionFormat, asAny, withReleases.
    cbn [VersionData.version VersionData.major VersionData.minor
         VersionData.update VersionData.build VersionData.changelog
         VersionData.releases VersionInfo.version VersionInfo.major
         VersionInfo.minor VersionInfo.update VersionInfo.build
         VersionInfo.changelog VersionInfo.releases].
    rewrite Hversion, andb_false_r. f_equal.
    + apply (rebuild_same withBuild (fun value => value) _ []);
        [assumption|].
      intros e He. split; [|reflexivity]. apply withBuild_same.
      unfold noLegacyKey in Hkeys. rewrite forallb_forall in Hkeys.
      now apply negb_true_iff, Hkeys.
    + f_equal. rewrite fold_left_app. cbn [fold_left fst snd]. f_equal.
      apply (rebuild_same withBuild migratedRelease _ []); [assumption|].
      intros e He. unfold noLegacyRelease in Hlegacy.
      rewrite forallb_forall in Hlegacy. specialize (Hlegacy e He).
      apply andb_true_iff in Hlegacy as [Hk Hv].
      apply negb_true_iff in Hk, Hv. split.
      * now apply withBuild_same.
      * now apply migratedRelease_same.
  - rewrite withBuild_same, migratedRelease_same by assumption.
    apply getCurrentVersion_asAny. apply migrated_parts.
    unfold withReleases.
    cbn [VersionInfo.version VersionInfo.changelog VersionInfo.releases].
    split; [assumption|]. split; [assumption|]. split; [assumption|].
    split; [now apply wf_set|]. unfold noLegacyRelease in *.
    apply forallb_set; [|assumption]. simpl. now rewrite E3.
Qed.

Lemma addRelease_read_back_witness :
  VersionInfo.releases
    (getCurrentVersion (addRelease Examples.legacyRelease Examples.twoFixes))
  = Some [("1.02.002.000",
           Examples.fixLogin "1.02.002.000" "2025-08-16T09:30:00.000Z");
          ("1.02.003.000",
           Examples.fixLogin "1.02.003.000" "2025-08-17T01:04:00.000Z")].
Proof.
  rewrite (addRelease_read_back Examples.legacyRelease Examples.twoFixes);
    [reflexivity | reflexivity | discriminate].
Defined.

(** X14. When no release of the document is stored under [__proto__],
    the release found under a key after migration is the migrated form of
    the last entry, in enumeration order, whose key migrates to it; when
    two entries migrate to the same key the earlier one is lost. *)
Theorem migrateVersionFormat_lookup (doc : VersionData.t)
    (releases : JsObject Release.t) (key : string)
    (Hreleases : VersionData.releases doc = Some releases)
    (Hkeys : ordinaryKeys releases = true) :
  exists migratedReleases,
    VersionInfo.releases (migrateVersionFormat doc) = Some migratedReleases
    /\ get key migratedReleases
       = option_map (fun e => migratedRelease (snd e))
           (find (fun e => (withBuild (fst e) =? key)%string) (rev releases)).
Proof.
  unfold migrateVersionFormat. cbn [VersionInfo.releases]. rewrite Hreleases.
  eexists. split; [reflexivity|].
  rewrite (get_fold_set withBuild migratedRelease).
  now destruct (find _ (rev releases)).
Qed.

Lemma migrateVersionFormat_lookup_witness :
  exists migratedReleases,
    VersionInfo.releases
      (migrateVersionFormat
         (VersionData.mk "1.02.003" 1 2 3 None []
            (Some [("1.02.003", Examples.legacyRelease);
                   ("1.02.003.000", Examples.planned)])))
    = Some migratedReleases
    /\ get "1.02.003.000" migratedReleases = Some Examples.planned.
Proof.
  destruct (migrateVersionFormat_lookup
              (VersionData.mk "1.02.003" 1 2 3 None []
                 (Some [("1.02.003", Examples.legacyRelease);
                        ("1.02.003.000", Examples.planned)]))
              _ "1.02.003.000" eq_refl eq_refl)
    as (migratedReleases & H1 & H2).
  exists migratedReleases. split; [exact H1 | exact H2].
Defined.

End Convenience.

(** ** Which release is the latest, and how many there are *)

Section Picking.

Import JsObject VersionManager.
Variable getTime : string -> number.

Lemma hd_sort_first_max {A} (comparefn : A -> A -> number) (time : A -> Z)
    (l : list A) (h : A) :
  (forall a b, In a l -> In b l -> comparefn a b = Num (time b - time a)) ->
  hd_error (JsArray.sort comparefn l) = Some h ->
  exists before after,
    l = (before ++ h :: after)%list
    /\ (forall y, In y before -> time y < time h)
    /\ (forall y, In y after -> time y <= time h).
Proof.
  revert h. induction l as [|a l IH]; intros h Hcmp Hhd; [discriminate|].
  change (JsArray.sort comparefn (a :: l))
    with (JsArray.insertSorted comparefn a (JsArray.sort comparefn l)) in Hhd.
  destruct (JsArray.sort comparefn l) as [|h' t] eqn:E.
  - apply sort_nil in E. subst l. injection Hhd as <-.
    exists [], []. repeat split; intros y [].
  - destruct (IH h') as (before & after & Hl & Hbefore & Hafter).
    { intros; apply Hcmp; now right. }
    { reflexivity. }
    assert (Hh' : In h' l) by (rewrite Hl; apply in_elt).
    cbn [JsArray.insertSorted] in Hhd.
    rewrite (Hcmp a h' (or_introl eq_refl) (or_intror Hh')) in Hhd.
    cbn [JsArray.isPositive] in Hhd.
    destruct (Z.ltb_spec 0 (time h' - time a)); injection Hhd as <-.
    + exists (a :: before), after. rewrite Hl. split; [reflexivity|].
      split; [|assumption]. intros y [<- | Hy]; [lia | auto].
    + exists [], l. split; [reflexivity|]. split; [intros y []|].
      intros y Hy. rewrite Hl in Hy. apply in_app_or in Hy.
      destruct Hy as [Hy | [<- | Hy]].
      * specialize (Hbefore y Hy). lia.
      * lia.
      * specialize (Hafter y Hy). lia.
Qed.

(** X15. When every release date is valid, the release picked for
    consolidation has the latest date, and among releases of that date it
    is the first in the enumeration order of the map. *)
Theorem latestReleaseKey_first_latest
    (releases : JsObject Release.t) (key : string)
    (Hvalid : forall k, In k (keys releases) ->
                exists t, releaseTime getTime releases k = Num t)
    (Hpick : latestReleaseKey getTime releases = Some key) :
  exists before after,
    keys releases = (before ++ key :: after)%list
    /\ (forall k, In k before ->
          laterThan (releaseTime getTime releases key)
                    (releaseTime getTime releases k))
    /\ (forall k, In k after ->
          ~ laterThan (releaseTime getTime releases k)
                      (releaseTime getTime releases key)).
Proof.
  unfold latestReleaseKey in Hpick.
  assert (Hcmp : forall a b, In a (keys releases) -> In b (keys releases) ->
            JsNumber.sub (releaseTime getTime releases b)
              (releaseTime getTime releases a)
            = Num (timeOr0 getTime releases b - timeOr0 getTime releases a)).
  { intros a b Ha Hb. unfold timeOr0.
    destruct (Hvalid a Ha) as [ta ->]. destruct (Hvalid b Hb) as [tb ->].
    reflexivity. }
  destruct (hd_sort_first_max
              (fun a b => JsNumber.sub (releaseTime getTime releases b)
                            (releaseTime getTime releases a))
              (timeOr0 getTime releases) _ _ Hcmp Hpick)
    as (before & after & Hkeys & Hbefore & Hafter).
  exists before, after. split; [exact Hkeys|].
  assert (Hkey : In key (keys releases)) by (rewrite Hkeys; apply in_elt).
  destruct (Hvalid key Hkey) as [tk Etk].
  split; intros k Hk.
  - assert (Hin : In k (keys releases))
      by (rewrite Hkeys; apply in_or_app; now left).
    destruct (Hvalid k Hin) as [t Et]. specialize (Hbefore k Hk).
    unfold timeOr0 in Hbefore. rewrite Et, Etk in *. exact Hbefore.
  - assert (Hin : In k (keys releases))
      by (rewrite Hkeys; apply in_or_app; right; now right).
    destruct (Hvalid k Hin) as [t Et]. specialize (Hafter k Hk).
    unfold timeOr0 in Hafter. rewrite Et, Etk in *. simpl. lia.
Qed.

(** X16. A release is picked exactly when the map is not empty, and the
    key picked is a key of the map, valid dates or not. *)
Theorem latestReleaseKey_exists (releases : JsObject Release.t) :
  (latestReleaseKey getTime releases = None <-> releases = [])
  /\ forall key, latestReleaseKey getTime releases = Some key ->
       exists release, get key releases = Some release.
Proof.
  split.
  - unfold latestReleaseKey. split.
    + intros H.
      destruct (JsArray.sort _ (keys releases)) as [|h t] eqn:E;
        [|discriminate].
      apply sort_nil in E. now destruct releases.
    + now intros ->.
  - intros key H. apply In_keys_get. eapply latestReleaseKey_In. exact H.
Qed.


End Picking.


Lemma latestReleaseKey_first_latest_witness :
  exists before after,
    JsObject.keys (loadedReleases Examples.twoFixes)
    = (before ++ "1.02.003.000" :: after)%list
    /\ forall k, In k before ->
         laterThan
           (VersionManager.releaseTime JsDate.isoTime (loadedReleases Examples.twoFixes)
              "1.02.003.000")
           (VersionManager.releaseTime JsDate.isoTime (loadedReleases Examples.twoFixes) k).
Proof.
  destruct (latestReleaseKey_first_latest JsDate.isoTime
              (loadedReleases Examples.twoFixes) "1.02.003.000")
    as (before & after & H1 & H2 & _).
  - intros k Hk. vm_compute in Hk.
    destruct Hk as [<- | [<- | []]]; vm_compute; eexists; reflexivity.
  - vm_compute. reflexivity.
  - exists before, after. split; [exact H1 | exact H2].
Defined.

(** ** The named wrappers and the scripts *)

Section Wrappers.

Import JsObject VersionManager.
Variable getTime : string -> number.

(** A call that does not ask for consolidation records its release under
    the new version. *)
Lemma updateVersion_records now type changelogEntry title summary changes
    technical file :
  recordsRelease
    (updateVersion getTime now type changelogEntry
       (Some (ReleaseInfo.mk title summary changes technical None)) file)
    (loadedReleases file) (releaseType type) title summary changes technical
    changelogEntry.
Proof.
  unfold recordsRelease. cbv zeta.
  destruct (updatedVersion_version getTime now type changelogEntry
              (Some (ReleaseInfo.mk title summary changes technical None))
              (getCurrentVersion file)) as (Hversion & _ & Hchangelog).
  rewrite updateVersion_result. cbn [snd].
  rewrite Hversion, Hchangelog, get_set_same.
  rewrite updatedVersion_with_release. cbv zeta.
  fold (loadedReleases file).
  rewrite consolidationTarget_None by (left; discriminate).
  cbn [VersionInfo.releases ReleaseInfo.title ReleaseInfo.summary
       ReleaseInfo.changes ReleaseInfo.technical].
  eexists. split; [reflexivity|]. now repeat split.
Qed.



(** X19. [incrementUpdate], [incrementMinor] and [incrementMajor] never
    consolidate: each records "title: summary" in the changelog and stores
    a release of type update, feature or major under the new version, next
    to the releases that were read. *)
Theorem increment_wrappers_record
    (now title summary : string) (changes : list string)
    (technical : option (list string)) (file : option VersionData.t) :
  recordsRelease
    (incrementUpdate getTime now title summary changes technical file)
    (loadedReleases file) "update" title summary changes technical
    (title ++ ": " ++ summary)
  /\ recordsRelease
       (incrementMinor getTime now title summary changes technical file)
       (loadedReleases file) "feature" title summary changes technical
       (title ++ ": " ++ summary)
  /\ recordsRelease
       (incrementMajor getTime now title summary changes technical file)
       (loadedReleases file) "major" title summary changes technical
       (title ++ ": " ++ summary).
Proof.
  unfold incrementUpdate, incrementMinor, incrementMajor. repeat split.
  - apply (updateVersion_records now Update).
  - apply (updateVersion_records now Minor).
  - apply (updateVersion_records now Major).
Qed.

Lemma orElse_not_empty (part : option string) (fallback : string) :
  fallback <> "" -> orElse part fallback <> "".
Proof. intros H. destruct part as [[|c s]|]; simpl; congruence. Qed.

(** X20. The update script always records a release with a title, a
    summary and at least one change: an argument that is missing or empty
    is replaced by its default, and the changes are the arguments after the
    summary when there are any. *)
Theorem script_incrementUpdate_defaults
    (now : string) (argv : list string) (file : option VersionData.t) :
  exists title summary changes,
    recordsRelease (Scripts.incrementUpdate getTime now argv file)
      (loadedReleases file) "update" title summary changes None
      (title ++ ": " ++ summary)
    /\ title <> "" /\ summary <> "" /\ changes <> []
    /\ (forall given, nth_error argv 2 = Some given -> given <> "" ->
          title = given)
    /\ (forall given, nth_error argv 3 = Some given -> given <> "" ->
          summary = given)
    /\ ((4 < List.length argv)%nat -> changes = skipn 4 argv).
Proof.
  unfold Scripts.incrementUpdate, Scripts.slice, incrementUpdate. cbv zeta.
  do 3 eexists. split; [apply (updateVersion_records now Update)|].
  split; [now apply orElse_not_empty|].
  split; [now apply orElse_not_empty|].
  split.
  { destruct (0 <? List.length (skipn 4 argv))%nat eqn:E; [|discriminate].
    apply Nat.ltb_lt in E. intros H. rewrite H in E. simpl in E. lia. }
  split; [intros given -> Hne; now apply orElse_some|].
  split; [intros given -> Hne; now apply orElse_some|].
  intros Hlen. rewrite length_skipn.
  now replace (0 <? List.length argv - 4)%nat with true
    by (symmetry; apply Nat.ltb_lt; lia).
Qed.

(** X21. The build script passes its first argument as the description,
    or "Development build" when it is missing or empty, so the changelog
    entry it records is never empty. *)
Theorem script_incrementBuild_description
    (now : string) (argv : list string) (file : option VersionData.t) :
  exists description,
    Scripts.incrementBuild getTime now argv file
    = autoIncrementBuild getTime now description file
    /\ description <> ""
    /\ get (VersionInfo.version
              (snd (Scripts.incrementBuild getTime now argv file)))
         (VersionInfo.changelog
            (snd (Scripts.incrementBuild getTime now argv file)))
       = Some description
    /\ (forall given, nth_error argv 2 = Some given -> given <> "" ->
          description = given)
    /\ ((List.length argv <= 2)%nat -> description = "Development build").
Proof.
  unfold Scripts.incrementBuild. cbv zeta. eexists.
  split; [reflexivity|]. split; [now apply orElse_not_empty|].
  split.
  { unfold autoIncrementBuild.
    destruct (updateVersion_records now Build
                (orElse (nth_error argv 2) "Development build")
                ("Build Update - "
                 ++ orElse (nth_error argv 2) "Development build")
                ("Automated build increment: "
                 ++ orElse (nth_error argv 2) "Development build")
                [orElse (nth_error argv 2) "Development build"]
                (Some ["Build number auto-incremented during development"])
                file) as (created & H).
    apply H. }
  split; [intros given -> Hne; now apply orElse_some|].
  intros Hlen. apply nth_error_None in Hlen. now rewrite Hlen.
Qed.

End Wrappers.

(** ** Reading the file *)

Section Reading.

Import JsObject VersionManager.

(** X22. Whatever the file holds, the document [getCurrentVersion]
    returns has no 3-part version string: not as its version, not as a key
    of the changelog or of the releases, not as the version of a release;
    and no key occurs twice. *)
Theorem getCurrentVersion_no_legacy (file : option VersionData.t) :
  let v := getCurrentVersion file in
  hasThreeParts (VersionInfo.version v) = false
  /\ NoDup (keys (VersionInfo.changelog v))
  /\ NoDup (keys (loadedReleases file))
  /\ (forall key, In key (keys (VersionInfo.changelog v)) ->
        hasThreeParts key = false)
  /\ (forall key release, get key (loadedReleases file) = Some release ->
        hasThreeParts key = false
        /\ hasThreeParts (Release.version release) = false).
Proof.
  cbv zeta.
  pose proof (migrated_getCurrentVersion file) as H.
  apply migrated_parts in H as (Hversion & Hwf & Hkeys & _).
  destruct (migrated_loadedReleases file) as [Hwf' Hlegacy].
  assert (Hnodup : forall (V : Type) (o : JsObject V),
            wf o = true -> NoDup (keys o)).
  { intros V o. induction o as [|[k v] o IH]; simpl; [constructor|].
    intros Ho. apply andb_true_iff in Ho as [H0 Ho].
    constructor; [|now apply IH].
    intros Hin. apply in_map_iff in Hin as ([k' v'] & E & Hin).
    simpl in E. subst k'. rewrite forallb_forall in H0.
    specialize (H0 _ Hin). simpl in H0.
    now rewrite String.eqb_refl in H0. }
  split; [assumption|]. split; [now apply Hnodup|].
  split; [now apply Hnodup|]. split.
  - intros key Hin. apply In_keys_get in Hin as [v Hget].
    unfold noLegacyKey in Hkeys.
    pose proof (forallb_get _ _ _ _ Hkeys Hget) as H. simpl in H.
    now apply negb_true_iff.
  - intros key release Hget. unfold noLegacyRelease in Hlegacy.
    pose proof (forallb_get _ _ _ _ Hlegacy Hget) as H. simpl in H.
    apply andb_true_iff in H as [H1 H2].
    now split; apply negb_true_iff.
Qed.

End Reading.

(** ** The settings validator *)

Section Settings.

Import SettingsValidator.

Lemma includes_In (arr : list string) (x : string) :
  includes arr x = true <-> In x arr.
Proof.
  unfold includes. rewrite existsb_exists. split.
  - intros (y & Hy & E). apply String.eqb_eq in E. now subst.
  - intros H. exists x. split; [assumption | apply String.eqb_refl].
Qed.

Lemma filter_nil_iff {A} (p : A -> bool) (l : list A) :
  (List.length (filter p l) =? 0)%nat = true
  <-> forall x, In x l -> p x = false.
Proof.
  rewrite Nat.eqb_eq. induction l as [|a l IH]; simpl.
  - split; [intros _ x [] | reflexivity].
  - destruct (p a) eqn:E; simpl.
    + split; [discriminate|]. intros H.
      specialize (H a (or_introl eq_refl)). congruence.
    + rewrite IH. split.
      * intros H x [<- | Hx]; auto.
      * intros H x Hx. apply H. now right.
Qed.

(** X23. [validateDefaultsCompleteness] accepts a defaults object exactly
    when its keys are the settings fields, no more and no fewer; the
    missing fields are the settings fields it lacks and the extra fields
    the keys that are no settings field. *)
Theorem validateDefaultsCompleteness_spec (defaults : JsObject JsValue) :
  let result := validateDefaultsCompleteness defaults in
  (Completeness.isValid result = true
   <-> forall field,
         In field (JsObject.keys defaults) <-> In field getSettingsFields)
  /\ (forall field,
        In field (Completeness.missingFields result)
        <-> In field getSettingsFields /\ ~ In field (JsObject.keys defaults))
  /\ (forall field,
        In field (Completeness.extraFields result)
        <-> In field (JsObject.keys defaults) /\ ~ In field getSettingsFields).
Proof.
  cbv zeta. unfold validateDefaultsCompleteness.
  cbn [Completeness.isValid Completeness.missingFields
       Completeness.extraFields].
  assert (Hneg : forall arr x, negb (includes arr x) = true <-> ~ In x arr).
  { intros arr x. rewrite negb_true_iff, <- not_true_iff_false.
    now rewrite includes_In. }
  split; [|split].
  - rewrite andb_true_iff, !filter_nil_iff. split.
    + intros [Hmissing Hextra] field. split; intros Hin.
      * specialize (Hextra field Hin). apply negb_false_iff in Hextra.
        now apply includes_In.
      * specialize (Hmissing field Hin). apply negb_false_iff in Hmissing.
        now apply includes_In.
    + intros H. split; intros field Hin; apply negb_false_iff, includes_In;
        now apply H.
  - intros field. now rewrite filter_In, Hneg.
  - intros field. now rewrite filter_In, Hneg.
Qed.

(** X24. [validateSettingsData] accepts the data exactly when every key is
    a settings field.  It gives at most two recommendations, at least one
    whenever the data is not accepted, and none exactly when the data is
    accepted and holds no integration. *)
Theorem validateSettingsData_spec (data : JsObject JsValue) :
  let result := validateSettingsData data in
  let integrations :=
    match objectKeyCount (JsObject.get "integrations" data) with
    | Some count => count
    | None => O
    end in
  (Validation.isValid result = true
   <-> forall field, In field (JsObject.keys data) ->
         In field getSettingsFields)
  /\ (List.length (Validation.recommendations result) <= 2)%nat
  /\ (Validation.recommendations result = []
      <-> Validation.isValid result = true /\ integrations = O).
Proof.
  cbv zeta. unfold validateSettingsData.
  cbn [Validation.isValid Validation.recommendations].
  split; [|split].
  - rewrite filter_nil_iff. split.
    + intros H field Hin. specialize (H field Hin).
      apply negb_false_iff in H. now apply includes_In.
    + intros H field Hin. apply negb_false_iff, includes_In. now apply H.
  - destruct (0 <? List.length _)%nat;
      destruct (objectKeyCount (JsObject.get "integrations" data)) as [n|];
      try destruct (0 <? n)%nat; simpl; lia.
  - destruct (List.length
                (filter (fun field => negb (includes getSettingsFields field))
                   (JsObject.keys data))) as [|m] eqn:Elen;
      destruct (objectKeyCount (JsObject.get "integrations" data)) as [[|n]|];
      simpl; split; try discriminate; try tauto;
      intros [H1 H2]; discriminate.
Qed.

(** X25. The columns preferences, notifications and customSettings of the
    settings table are no settings field of the validator: data that
    holds one of them is not accepted, and the column is reported as
    unexpected. *)
Theorem validateSettingsData_rejects_columns
    (data : JsObject JsValue) (column : string)
    (Hcolumn : column = "preferences" \/ column = "notifications"
               \/ column = "customSettings")
    (Hdata : In column (JsObject.keys data)) :
  In column userSettingsColumns
  /\ Validation.isValid (validateSettingsData data) = false
  /\ In column (Validation.unexpectedFields (validateSettingsData data)).
Proof.
  assert (Hunexpected :
    In column (Validation.unexpectedFields (validateSettingsData data))).
  { unfold validateSettingsData. cbn [Validation.unexpectedFields].
    apply filter_In. split; [assumption|].
    destruct Hcolumn as [-> | [-> | ->]]; reflexivity. }
  split; [|split; [|assumption]].
  - destruct Hcolumn as [-> | [-> | ->]]; simpl; tauto.
  - unfold validateSettingsData in *.
    cbn [Validation.isValid Validation.unexpectedFields] in *.
    destruct (filter _ (JsObject.keys data)); [destruct Hunexpected|].
    reflexivity.
Qed.

Lemma validateSettingsData_rejects_columns_witness :
  Validation.isValid
    (validateSettingsData
       [("theme", VString "dark"); ("preferences", VObject [])])
  = false.
Proof.
  apply (validateSettingsData_rejects_columns
           [("theme", VString "dark"); ("preferences", VObject [])]
           "preferences").
  - now left.
  - simpl. tauto.
Defined.

End Settings.

Lemma script_incrementUpdate_defaults_witness :
  exists title summary changes,
    recordsRelease
      (Scripts.incrementUpdate JsDate.isoTime Examples.later
         ["node"; "increment-update.js"; "Dark mode"] None)
      (loadedReleases None) "update" title summary changes None
      (title ++ ": " ++ summary)
    /\ title = "Dark mode" /\ changes <> [].
Proof.
  destruct (script_incrementUpdate_defaults JsDate.isoTime Examples.later
              ["node"; "increment-update.js"; "Dark mode"] None)
    as (title & summary & changes & H & _ & _ & Hchanges & Htitle & _).
  exists title, summary, changes. split; [exact H|].
  split; [|exact Hchanges].
  apply (Htitle "Dark mode"); [reflexivity | discriminate].
Defined.

Lemma script_incrementBuild_description_witness :
  exists description,
    Scripts.incrementBuild JsDate.isoTime Examples.later
      ["node"; "increment-build.ts"] None
    = VersionManager.autoIncrementBuild JsDate.isoTime Examples.later
        description None
    /\ description = "Development build".
Proof.
  destruct (script_incrementBuild_description JsDate.isoTime Examples.later
              ["node"; "increment-build.ts"] None)
    as (description & H & _ & _ & _ & Hdefault).
  exists description. split; [exact H|].
  apply Hdefault. simpl. lia.
Defined.
